(** * envldr: loading struct fields from environment variables

    A shallow embedding of [loader.go] (package envldr, the version with
    [LoadEnvUserParser], keyword/type/kind parser tables and the
    [env_var] / [env_parser] / [env_params] struct tags).

    Modelling choices:
    - Go types are [gotype]: named non-struct types carry their
      [reflect.Kind]; struct types carry their field descriptors
      ([reflect.StructField]: name, PkgPath, tag, type); pointers [TPtr].
    - A value of a struct type is [VStruct] with one value per field, in
      declaration order.  A pointer is [VNil] or [VRef] of its pointee;
      the pointee is owned by the field that holds it (no aliasing).
    - A struct tag is the list of its [key:"value"] pairs;
      [StructTag.Lookup] returns the first pair with the key.
    - The environment ([os.LookupEnv]) is a [gmap string string].
    - A nil Go map or slice handed to a parser is modelled as the empty
      one.
    - The floating point, complex and JSON decoders of the Go library are
      external collaborators, passed in as functions.
    - Integers are 64-bit ([strconv.IntSize = 64]). *)

From Stdlib Require Import ZArith Lia Bool.
From stdpp Require Import base gmap strings list.
From Stdlib Require Import String Ascii.

Set Warnings "-register-all".
Open Scope Z_scope.

(** ** reflect.Kind *)

Inductive kind :=
| KInvalid | KBool
| KInt | KInt8 | KInt16 | KInt32 | KInt64
| KUint | KUint8 | KUint16 | KUint32 | KUint64 | KUintptr
| KFloat32 | KFloat64 | KComplex64 | KComplex128
| KArray | KChan | KFunc | KInterface | KMap | KPtr | KSlice | KString
| KStruct | KUnsafePointer.

Definition kind_eqb (a b : kind) : bool :=
  match a, b with
  | KInvalid, KInvalid | KBool, KBool
  | KInt, KInt | KInt8, KInt8 | KInt16, KInt16 | KInt32, KInt32
  | KInt64, KInt64
  | KUint, KUint | KUint8, KUint8 | KUint16, KUint16 | KUint32, KUint32
  | KUint64, KUint64 | KUintptr, KUintptr
  | KFloat32, KFloat32 | KFloat64, KFloat64
  | KComplex64, KComplex64 | KComplex128, KComplex128
  | KArray, KArray | KChan, KChan | KFunc, KFunc | KInterface, KInterface
  | KMap, KMap | KPtr, KPtr | KSlice, KSlice | KString, KString
  | KStruct, KStruct | KUnsafePointer, KUnsafePointer => true
  | _, _ => false
  end.

(** [reflect.Kind.String] *)
Definition kind_string (k : kind) : string :=
  match k with
  | KInvalid => "invalid" | KBool => "bool"
  | KInt => "int" | KInt8 => "int8" | KInt16 => "int16"
  | KInt32 => "int32" | KInt64 => "int64"
  | KUint => "uint" | KUint8 => "uint8" | KUint16 => "uint16"
  | KUint32 => "uint32" | KUint64 => "uint64" | KUintptr => "uintptr"
  | KFloat32 => "float32" | KFloat64 => "float64"
  | KComplex64 => "complex64" | KComplex128 => "complex128"
  | KArray => "array" | KChan => "chan" | KFunc => "func"
  | KInterface => "interface" | KMap => "map" | KPtr => "ptr"
  | KSlice => "slice" | KString => "string" | KStruct => "struct"
  | KUnsafePointer => "unsafe.Pointer"
  end.

(** ** Types, struct fields and values *)

Definition tag := list (string * string).

Inductive gotype :=
| TNamed (name : string) (k : kind)
| TStruct (name : string) (fields : list structField)
| TPtr (elem : gotype)
with structField :=
| StructField (Name PkgPath : string) (Tag : tag) (Type_ : gotype).

(** [reflect.Type.Kind] *)
Definition kind_of (t : gotype) : kind :=
  match t with
  | TNamed _ k => k
  | TStruct _ _ => KStruct
  | TPtr _ => KPtr
  end.

Inductive value :=
| VBool (b : bool)
| VInt (z : Z)              (** int, int8, ..., int64 *)
| VUint (z : Z)             (** uint, uint8, ..., uint64 *)
| VFloat (bits : Z)
| VComplex (re im : Z)
| VString (s : string)
| VData (payload : string)  (** contents of a non-nil slice, map, array... *)
| VNil                      (** nil pointer, slice, map, interface... *)
| VRef (v : value)          (** non-nil pointer to [v] *)
| VStruct (fields : list value).

(** The zero value of a type, as [reflect.New(t).Elem()] holds it. *)
Fixpoint zero_value (t : gotype) : value :=
  match t with
  | TNamed _ k =>
      match k with
      | KBool => VBool false
      | KInt | KInt8 | KInt16 | KInt32 | KInt64 => VInt 0
      | KUint | KUint8 | KUint16 | KUint32 | KUint64 | KUintptr => VUint 0
      | KFloat32 | KFloat64 => VFloat 0
      | KComplex64 | KComplex128 => VComplex 0 0
      | KString => VString ""
      | KArray => VData ""
      | _ => VNil
      end
  | TStruct _ fs => VStruct (map (fun '(StructField _ _ _ ft) => zero_value ft) fs)
  | TPtr _ => VNil
  end.

(** [reflect.Indirect] *)
Definition Indirect (v : value) : value :=
  match v with
  | VRef w => w
  | _ => v
  end.

(** ** Errors and results *)

Inductive goerror :=
| ErrSyntax (fn num : string)   (** strconv.ErrSyntax *)
| ErrRange (fn num : string)    (** strconv.ErrRange *)
| ErrBitSize (fn num : string)
| ErrOther (msg : string).      (** errors of the JSON decoder, user parsers... *)

Inductive result (A : Type) :=
| Ok (a : A)
| Err (e : goerror).
Arguments Ok {A} a.
Arguments Err {A} e.

(** [type Parser func(t reflect.Type, val string, params []string,
    kwParams map[string]string) (interface{}, error)] *)
Definition Parser := gotype -> string -> list string -> gmap string string -> result value.

(** ** strconv *)

Section Strconv.

Definition digit_val (c : ascii) : option Z :=
  let n := Z.of_nat (nat_of_ascii c) - 48 in
  if (0 <=? n) && (n <=? 9) then Some n else None.

(** The digit loop of [strconv.ParseUint] in base 10: a non-digit is a
    syntax error, a value above [maxVal] a range error, both reported at
    the character where they occur. *)
Fixpoint parse_digits (maxVal n : Z) (s : string) : result Z :=
  match s with
  | EmptyString => Ok n
  | String c rest =>
      match digit_val c with
      | None => Err (ErrSyntax "" "")
      | Some d =>
          let n1 := n * 10 + d in
          if maxVal <? n1 then Err (ErrRange "" "") else parse_digits maxVal n1 rest
      end
  end.

Definition IntSize : Z := 64.

Definition with_func (fn num : string) (e : goerror) : goerror :=
  match e with
  | ErrSyntax _ _ => ErrSyntax fn num
  | ErrRange _ _ => ErrRange fn num
  | ErrBitSize _ _ => ErrBitSize fn num
  | ErrOther m => ErrOther m
  end.

(** [strconv.ParseUint(s, 10, bitSize)] *)
Definition ParseUint (s : string) (bitSize : Z) : result Z :=
  if String.eqb s "" then Err (ErrSyntax "ParseUint" s) else
  let bitSize := if bitSize =? 0 then IntSize else bitSize in
  if (bitSize <? 0) || (64 <? bitSize) then Err (ErrBitSize "ParseUint" s) else
  let maxVal := 2 ^ bitSize - 1 in
  match parse_digits maxVal 0 s with
  | Ok n => Ok n
  | Err e => Err (with_func "ParseUint" s e)
  end.

(** [strconv.ParseInt(s, 10, bitSize)] *)
Definition ParseInt (s0 : string) (bitSize : Z) : result Z :=
  if String.eqb s0 "" then Err (ErrSyntax "ParseInt" s0) else
  let '(neg, s) :=
    match s0 with
    | String "+" r => (false, r)
    | String "-" r => (true, r)
    | _ => (false, s0)
    end in
  let un :=
    match ParseUint s bitSize with
    | Ok n => Ok n
    | Err (ErrRange _ _) =>
        (* ParseUint returns maxVal together with its range error *)
        Ok (2 ^ (if bitSize =? 0 then IntSize else bitSize) - 1)
    | Err e => Err (with_func "ParseInt" s0 e)
    end in
  match un with
  | Err e => Err e
  | Ok un =>
      let bitSize := if bitSize =? 0 then IntSize else bitSize in
      let cutoff := 2 ^ (bitSize - 1) in
      if negb neg && (cutoff <=? un) then Err (ErrRange "ParseInt" s0)
      else if neg && (cutoff <? un) then Err (ErrRange "ParseInt" s0)
      else Ok (if neg then - un else un)
  end.

(** [strconv.ParseBool] *)
Definition ParseBool (s : string) : result bool :=
  if existsb (String.eqb s) ["1"; "t"; "T"; "TRUE"; "true"; "True"] then Ok true
  else if existsb (String.eqb s) ["0"; "f"; "F"; "FALSE"; "false"; "False"] then Ok false
  else Err (ErrSyntax "ParseBool" s).

End Strconv.

(** ** reflect.Value.Convert from int64 / uint64 *)

(** two's complement wrap-around to [w] bits *)
Definition wrap_signed (w z : Z) : Z :=
  let m := z mod 2 ^ w in
  if 2 ^ (w - 1) <=? m then m - 2 ^ w else m.

Definition wrap_unsigned (w z : Z) : Z := z mod 2 ^ w.

(** [reflect.ValueOf(i).Convert(t)] for [i : int64] *)
Definition convert_int (t : gotype) (i : Z) : value :=
  match kind_of t with
  | KInt8 => VInt (wrap_signed 8 i)
  | KInt16 => VInt (wrap_signed 16 i)
  | KInt32 => VInt (wrap_signed 32 i)
  | _ => VInt (wrap_signed 64 i)
  end.

(** [reflect.ValueOf(i).Convert(t)] for [i : uint64] *)
Definition convert_uint (t : gotype) (i : Z) : value :=
  match kind_of t with
  | KUint8 => VUint (wrap_unsigned 8 i)
  | KUint16 => VUint (wrap_unsigned 16 i)
  | KUint32 => VUint (wrap_unsigned 32 i)
  | _ => VUint (wrap_unsigned 64 i)
  end.

(** ** strings.Split, strings.Contains for a one-character separator *)

Fixpoint Split (s : string) (sep : ascii) : list string :=
  match s with
  | EmptyString => [""%string]
  | String c rest =>
      if Ascii.eqb c sep then ""%string :: Split rest sep
      else match Split rest sep with
           | h :: t => String c h :: t
           | [] => [String c ""]
           end
  end.

Fixpoint Contains (s : string) (c : ascii) : bool :=
  match s with
  | EmptyString => false
  | String x rest => Ascii.eqb x c || Contains rest c
  end.

(** [reflect.StructTag.Lookup]: the first [key:"value"] pair with the key *)
Fixpoint tag_Lookup (tg : tag) (key : string) : option string :=
  match tg with
  | [] => None
  | (k, v) :: rest => if String.eqb k key then Some v else tag_Lookup rest key
  end.

Definition varTag : string := "env_var".
Definition parserTag : string := "env_parser".
Definition paramsTag : string := "env_params".
Definition separator : ascii := ";".
Definition equal : ascii := "=".

(** [bitSizeMap]: a Go map indexed with a missing key yields 0 *)
Definition bitSizeMap (k : kind) : Z :=
  match k with
  | KInt => 0
  | KInt16 => 16
  | KInt32 => 32
  | KInt64 => 64
  | KUint => 0
  | KUint16 => 16
  | KUint32 => 32
  | KUint64 => 64
  | KFloat32 => 32
  | KFloat64 => 64
  | KComplex64 => 64
  | KComplex128 => 128
  | _ => 0
  end.

(** The part of [getEnv] that reads the [env_params] tag value: the
    tokens split on [separator]; tokens containing [equal] go to the
    keyword parameters as [kp[0] -> kp[1]] of [strings.Split(v, equal)],
    the others to the positional ones. *)
Definition split_params (prms : string) : list string * gmap string string :=
  fold_left
    (fun '(params, kwParams) v =>
       if Contains v equal then
         let kp := Split v equal in
         (params, <[nth 0 kp ""%string := nth 1 kp ""%string]> kwParams)
       else (params ++ [v], kwParams))
    (Split prms separator) ([], ∅).

Record envResult := EnvResult {
  val : string;
  parserKw : string;
  params : list string;
  kwParams : gmap string string;
  ok : bool
}.

Section Loader.

(** the process environment, as [os.LookupEnv] sees it *)
Variable env : gmap string string.

Definition LookupEnv (name : string) : string * bool :=
  match env !! name with
  | Some v => (v, true)
  | None => (""%string, false)
  end.

(** [getEnv]: note that [val] and [ok] are the named results, assigned by
    the initialiser of the [if] *)
Definition getEnv (st : structField) : envResult :=
  let '(StructField _ _ tg _) := st in
  let '(val, ok) :=
    match tag_Lookup tg varTag with
    | Some v => (v, true)
    | None => (""%string, false)
    end in
  if ok && negb (String.eqb val "") then
    let '(val, ok) := LookupEnv val in
    let parserKw :=
      match tag_Lookup tg parserTag with
      | Some psr => if negb (String.eqb psr "") then psr else ""%string
      | None => ""%string
      end in
    let '(params, kwParams) :=
      match tag_Lookup tg paramsTag with
      | Some prms => if negb (String.eqb prms "") then split_params prms else ([], ∅)
      | None => ([], ∅)
      end in
    EnvResult val parserKw params kwParams ok
  else EnvResult val "" [] ∅ ok.

End Loader.

(** ** Built-in parsers *)

Section Parsers.

(** External collaborators: [strconv.ParseFloat] (the result as the bit
    pattern of a float64), [strconv.ParseComplex] and [json.Unmarshal]
    decoding into a new zero value of the given type. *)
Variable ParseFloat : string -> Z -> result Z.
Variable ParseComplex : string -> Z -> result (Z * Z).
Variable json_Unmarshal : gotype -> string -> result value.

Definition intParser : Parser := fun t val params kwParams =>
  match ParseInt val (bitSizeMap (kind_of t)) with
  | Err e => Err e
  | Ok i => if kind_eqb (kind_of t) KInt64 then Ok (VInt i) else Ok (convert_int t i)
  end.

Definition uintParser : Parser := fun t val params kwParams =>
  match ParseUint val (bitSizeMap (kind_of t)) with
  | Err e => Err e
  | Ok i => if kind_eqb (kind_of t) KUint64 then Ok (VUint i) else Ok (convert_uint t i)
  end.

Definition floatParser : Parser := fun t val params kwParams =>
  match ParseFloat val (bitSizeMap (kind_of t)) with
  | Err e => Err e
  | Ok f => Ok (VFloat f)
  end.

Definition complexParser : Parser := fun t val params kwParams =>
  match ParseComplex val (bitSizeMap (kind_of t)) with
  | Err e => Err e
  | Ok (re, im) => Ok (VComplex re im)
  end.

(** [reflect.New(t)] filled by the decoder; the result is the pointer *)
Definition jsonParser : Parser := fun t val params kwParams =>
  match json_Unmarshal t val with
  | Err e => Err e
  | Ok v => Ok (VRef v)
  end.

Definition boolParser : Parser := fun t val params kwParams =>
  match ParseBool val with
  | Err e => Err e
  | Ok b => Ok (VBool b)
  end.

Definition stringParser : Parser := fun t val params kwParams => Ok (VString val).

(** the built-in table [parsers], keyed by kind *)
Definition parsers (k : kind) : option Parser :=
  match k with
  | KUint | KUint8 | KUint16 | KUint32 | KUint64 => Some uintParser
  | KInt | KInt8 | KInt16 | KInt32 | KInt64 => Some intParser
  | KFloat32 | KFloat64 => Some floatParser
  | KComplex64 | KComplex128 => Some complexParser
  | KBool => Some boolParser
  | KString => Some stringParser
  | KSlice | KMap | KStruct => Some jsonParser
  | _ => None
  end.

(** ** The caller's tables and [getParser] *)

(** [kwParsers] is a [map[string]Parser]; [typeParsers] and [kindParsers]
    ([map[reflect.Type]Parser], [map[reflect.Kind]Parser]) are given by
    their lookup functions.  A nil map is the empty one. *)
Variable kwParsers : gmap string Parser.
Variable typeParsers : gotype -> option Parser.
Variable kindParsers : kind -> option Parser.

Definition getParser (parserKw : string) (fType : gotype) : option Parser :=
  match (if negb (String.eqb parserKw "") then kwParsers !! parserKw else None) with
  | Some parser => Some parser
  | None =>
      match typeParsers fType with
      | Some parser => Some parser
      | None =>
          match kindParsers (kind_of fType) with
          | Some parser => Some parser
          | None => parsers (kind_of fType)
          end
      end
  end.

(** ** loadEnv *)

Variable env : gmap string string.

(** the look-ahead over the fields of the struct behind a nil pointer *)
Definition hasEnvVal (elem : gotype) : bool :=
  match elem with
  | TStruct _ fs => existsb (fun st => ok (getEnv env st)) fs
  | _ => false
  end.

(** The first steps of a bound field: the type handed to the parser
    ([fieldType]), the value written through ([fieldValue]) and how it sits
    in the field.  A nil pointer is allocated here
    ([fieldValue.Set(reflect.New(fieldType))]), a non-nil one is
    dereferenced. *)
Definition bind_target (ft : gotype) (fv : value) : gotype * value * (value -> value) :=
  match ft, fv with
  | TPtr e, VNil => (e, zero_value e, VRef)
  | TPtr e, VRef w => (e, w, VRef)
  | _, _ => (ft, fv, fun w => w)
  end.

(** the type [bind_target] hands to the parser *)
Definition target_type (ft : gotype) (fv : value) : gotype :=
  let '(fieldType, _, _) := bind_target ft fv in fieldType.

(** One iteration of the loop of [loadEnv]: the field's new value and the
    error that aborts the loop, if any.  [rec] is the recursive call.
    [fieldValue.Set(itfValue)] is written as storing [Indirect itf]; the
    panic of [reflect.Value.Set] when the parser's result is not
    assignable to [fieldType] (a built-in parser's [string] for a field of
    a defined string type, say) is not represented, so what is proved
    about the stored value holds where the result is assignable. *)
Definition load_field (rec : gotype -> value -> value * option goerror)
    (structField : structField) (fv : value) : value * option goerror :=
  let '(StructField _ PkgPath _ ft) := structField in
  if negb (String.eqb PkgPath "") then (fv, None) else
  let r := getEnv env structField in
  if ok r then
    let '(fieldType, fieldValue, wrap) := bind_target ft fv in
    match getParser (parserKw r) fieldType with
    | Some p =>
        match p fieldType (val r) (params r) (kwParams r) with
        | Err err => (wrap fieldValue, Some err)
        | Ok itf => (wrap (Indirect itf), None)
        end
    | None => (wrap fieldValue, None)
    end
  else
    match ft, fv with
    | TPtr e, VNil =>
        if kind_eqb (kind_of e) KStruct && hasEnvVal e then
          let '(w, err) := rec e (zero_value e) in (VRef w, err)
        else (fv, None)
    | TPtr e, VRef w =>
        if kind_eqb (kind_of e) KStruct then
          let '(w', err) := rec e w in (VRef w', err)
        else (fv, None)
    | _, _ =>
        if kind_eqb (kind_of ft) KStruct then rec ft fv else (fv, None)
    end.

Fixpoint load_fields (rec : gotype -> value -> value * option goerror)
    (fs : list structField) (vs : list value) : list value * option goerror :=
  match fs, vs with
  | st :: fs', fv :: vs' =>
      let '(fv', err) := load_field rec st fv in
      match err with
      | Some e => (fv' :: vs', Some e)
      | None => let '(vs'', err') := load_fields rec fs' vs' in (fv' :: vs'', err')
      end
  | _, _ => (vs, None)
  end.

(** [loadEnv(v)] for [v] of struct type [t] *)
Fixpoint loadEnv (t : gotype) (v : value) {struct t} : value * option goerror :=
  match t, v with
  | TStruct _ fs, VStruct vs =>
      let '(vs', err) := load_fields loadEnv fs vs in (VStruct vs', err)
  | _, _ => (v, None)
  end.

End Parsers.

(** ** LoadEnvUserParser, LoadEnv *)

(** How a call ends: a panic with its message, or a returned error. *)
Inductive outcome :=
| Panic (msg : string)
| Return (err : option goerror).

Definition panic_msg (provided required : kind) : string :=
  ("'" ++ kind_string provided ++ "' provided but '" ++ kind_string required ++ "' required")%string.

(** The argument [itf interface{}] is [None] for a nil interface, else the
    dynamic type and value.  The result is the argument after the call
    (the pointee is updated in place) and how the call ended. *)
Definition LoadEnvUserParser (ParseFloat : string -> Z -> result Z)
    (ParseComplex : string -> Z -> result (Z * Z))
    (json_Unmarshal : gotype -> string -> result value)
    (keywordParsers : gmap string Parser) (typeParsers : gotype -> option Parser)
    (kindParsers : kind -> option Parser) (env : gmap string string)
    (itf : option (gotype * value)) : option (gotype * value) * outcome :=
  match itf with
  | Some (TPtr e, VRef w) =>
      if kind_eqb (kind_of e) KStruct then
        let '(w', err) := loadEnv ParseFloat ParseComplex json_Unmarshal
                            keywordParsers typeParsers kindParsers env e w in
        (Some (TPtr e, VRef w'), Return err)
      else (itf, Panic (panic_msg (kind_of e) KStruct))
  | Some (TPtr e, _) =>
      (* v.Elem() of a nil pointer is the zero reflect.Value *)
      (itf, Panic (panic_msg KInvalid KStruct))
  | Some (t, _) => (itf, Panic (panic_msg (kind_of t) KPtr))
  | None => (itf, Panic (panic_msg KInvalid KPtr))
  end.

Definition LoadEnv ParseFloat ParseComplex json_Unmarshal env itf :=
  LoadEnvUserParser ParseFloat ParseComplex json_Unmarshal ∅ (fun _ => None) (fun _ => None) env itf.

(** ** Notions of the specification *)

(** A field's annotation is satisfied when it names a non-empty variable
    that the environment has. *)
Definition satisfied (env : gmap string string) (st : structField) : bool :=
  let '(StructField _ _ tg _) := st in
  match tag_Lookup tg varTag with
  | Some n => negb (String.eqb n "") && bool_decide (is_Some (env !! n))
  | None => false
  end.

(** a field tagged [env_var:""] *)
Definition empty_var_tag (st : structField) : bool :=
  let '(StructField _ _ tg _) := st in
  match tag_Lookup tg varTag with
  | Some n => String.eqb n ""
  | None => false
  end.

(** The parser registry as the specification words it: the four layers in
    precedence order, the first that has a parser wins. *)
Definition first_match {A} (layers : list (option A)) : option A :=
  fold_right (fun o acc => match o with Some p => Some p | None => acc end) None layers.

Definition registry_layers ParseFloat ParseComplex json_Unmarshal
    (kwParsers : gmap string Parser) (typeParsers : gotype -> option Parser)
    (kindParsers : kind -> option Parser) (keyword : string) (t : gotype)
    : list (option Parser) :=
  [ if String.eqb keyword "" then None else kwParsers !! keyword;
    typeParsers t;
    kindParsers (kind_of t);
    parsers ParseFloat ParseComplex json_Unmarshal (kind_of t) ].

(** ** Collaborators and types for concrete runs *)

(** stand-ins for the float, complex and JSON decoders *)
Definition float_unsupported : string -> Z -> result Z := fun _ _ => Err (ErrOther "float").
Definition complex_unsupported : string -> Z -> result (Z * Z) := fun _ _ => Err (ErrOther "complex").
Definition json_raw : gotype -> string -> result value := fun _ s => Ok (VData s).

Definition t_string : gotype := TNamed "string" KString.
Definition t_int : gotype := TNamed "int" KInt.
Definition t_int8 : gotype := TNamed "int8" KInt8.
Definition t_int16 : gotype := TNamed "int16" KInt16.

Definition field (name var : string) (t : gotype) : structField :=
  StructField name "" [(varTag, var)] t.
Definition plain_field (name : string) (t : gotype) : structField :=
  StructField name "" [] t.

(** [struct { X int8 `env_var:"X"` }] and its int16 sibling *)
Definition S8 : gotype := TStruct "S8" [field "X" "X" t_int8].
Definition S16 : gotype := TStruct "S16" [field "X" "X" t_int16].

(** README: [DatabaseConfig] and a [Config] holding it under [DB_CONFIG] *)
Definition DatabaseConfig : gotype :=
  TStruct "DatabaseConfig" [field "Host" "DB_HOST" t_string; field "Port" "DB_PORT" (TNamed "int64" KInt64)].
Definition Config : gotype :=
  TStruct "Config" [field "AppId" "APP_ID" t_string; field "Database" "DB_CONFIG" DatabaseConfig].

(** [Inner { X string `env_var:"X"` }], [Mid { Inner Inner }],
    [Outer { Mid *Mid }] *)
Definition Inner : gotype := TStruct "Inner" [field "X" "X" t_string].
Definition Mid : gotype := TStruct "Mid" [plain_field "Inner" Inner].
Definition Outer : gotype := TStruct "Outer" [plain_field "Mid" (TPtr Mid)].

(** [struct { S string `env_var:""`; N int `env_var:""` }] *)
Definition EmptyTagged : gotype := TStruct "EmptyTagged" [field "S" "" t_string].
Definition EmptyTaggedInt : gotype := TStruct "EmptyTaggedInt" [field "N" "" t_int].

(** caller tables: none, or one keyword parser [upper] *)
Definition no_kw : gmap string Parser := ∅.
Definition no_type : gotype -> option Parser := fun _ => None.
Definition no_kind : kind -> option Parser := fun _ => None.
Definition upper_parser : Parser := fun _ _ _ _ => Ok (VString "OVERRIDE").
Definition upper_kw : gmap string Parser := {[ "upper" := upper_parser ]}.

(** [struct { S string `env_var:"A" env_parser:"upper"` }] *)
Definition upper_field : structField :=
  StructField "S" "" [(varTag, "A"); (parserTag, "upper")] t_string.
(** [C chan int `env_var:"A"`]: no parser for kind chan *)
Definition chan_field : structField := field "C" "A" (TNamed "chan int" KChan).
(** [P *chan int `env_var:"A"`] *)
Definition chan_ptr_field : structField := field "P" "A" (TPtr (TNamed "chan int" KChan)).
(** [M *Inner] *)
Definition inner_ptr_field : structField := plain_field "M" (TPtr Inner).
(** [F string `env_var:"F" env_params:"k=a=b"`] *)
Definition params_field : structField :=
  StructField "F" "" [(varTag, "F"); (paramsTag, "k=a=b")] t_string.

(** ** Decimal texts *)

(** a non-empty text of decimal digits *)
Fixpoint all_digits (s : string) : bool :=
  match s with
  | EmptyString => true
  | String c rest => bool_decide (is_Some (digit_val c)) && all_digits rest
  end.

Fixpoint dec_value_from (n : Z) (s : string) : Z :=
  match s with
  | EmptyString => n
  | String c rest =>
      dec_value_from (n * 10 + match digit_val c with Some d => d | None => 0 end) rest
  end.

(** the number a decimal text denotes *)
Definition dec_value (s : string) : Z := dec_value_from 0 s.

(** the integer a sign ([""], ["+"] or ["-"]) and a digit text denote *)
Definition signed_value (sign digits : string) : Z :=
  if String.eqb sign "-" then - dec_value digits else dec_value digits.

(** ** [setField] of the second snapshot in src/unnamed/part_000 *)

Module Snapshot0.

(** How a call of [setField] on a settable field ends: the value stored
    with [field.Set], the error returned (the field is left as it was),
    or a panic of [field.Set]. *)
Inductive setResult :=
| Stored (v : value)
| Failed (e : goerror)
| SetPanics.

(** The predeclared type of a kind ([int8], [string], ...): [uint8(ui)],
    [int8(i)], a raw [string] and the like have it.  [TNamed n k] names a
    type by its [reflect.Type.String()], so a defined type carries its
    package ([main.Level]) and only a predeclared type is named as its
    kind. *)
Definition predeclared (t : gotype) : bool :=
  match t with
  | TNamed n k => String.eqb n (kind_string k)
  | _ => false
  end.

(** [if err != nil { return }; field.Set(reflect.ValueOf(v))]: [v] has the
    predeclared type of the field's kind, and [Set] panics unless it is
    assignable to the field's type, i.e. unless the field has that very
    type (both are named types). *)
Definition set_value (t : gotype) (r : result value) : setResult :=
  match r with
  | Err e => Failed e
  | Ok v => if predeclared t then Stored v else SetPanics
  end.

Section SetField.

Variable ParseFloat : string -> Z -> result Z.
Variable ParseComplex : string -> Z -> result (Z * Z).
Variable json_Unmarshal : gotype -> string -> result value.

(** [setField(field, value)] for a valid, settable field of type [t]
    ([value_] is the source's [value]).  The JSON branch decodes into
    [reflect.New(field.Type())], so its [Set] always succeeds. *)
Definition setField (t : gotype) (value_ : string) : setResult :=
  match kind_of t with
  | KUint =>
      set_value t (match ParseUint value_ 0 with Ok ui => Ok (VUint (wrap_unsigned 64 ui)) | Err e => Err e end)
  | KUint8 =>
      set_value t (match ParseUint value_ 8 with Ok ui => Ok (VUint (wrap_unsigned 8 ui)) | Err e => Err e end)
  | KUint16 =>
      set_value t (match ParseUint value_ 16 with Ok ui => Ok (VUint (wrap_unsigned 16 ui)) | Err e => Err e end)
  | KUint32 =>
      set_value t (match ParseUint value_ 32 with Ok ui => Ok (VUint (wrap_unsigned 32 ui)) | Err e => Err e end)
  | KUint64 =>
      set_value t (match ParseUint value_ 64 with Ok ui => Ok (VUint ui) | Err e => Err e end)
  | KInt =>
      set_value t (match ParseInt value_ 0 with Ok i => Ok (VInt (wrap_signed 64 i)) | Err e => Err e end)
  | KInt8 =>
      set_value t (match ParseInt value_ 8 with Ok i => Ok (VInt (wrap_signed 8 i)) | Err e => Err e end)
  | KInt16 =>
      set_value t (match ParseInt value_ 16 with Ok i => Ok (VInt (wrap_signed 16 i)) | Err e => Err e end)
  | KInt32 =>
      set_value t (match ParseInt value_ 32 with Ok i => Ok (VInt (wrap_signed 32 i)) | Err e => Err e end)
  | KInt64 =>
      set_value t (match ParseInt value_ 64 with Ok i => Ok (VInt i) | Err e => Err e end)
  | KFloat32 =>
      set_value t (match ParseFloat value_ 32 with Ok f => Ok (VFloat f) | Err e => Err e end)
  | KFloat64 =>
      set_value t (match ParseFloat value_ 64 with Ok f => Ok (VFloat f) | Err e => Err e end)
  | KComplex64 =>
      set_value t (match ParseComplex value_ 64 with Ok (re, im) => Ok (VComplex re im) | Err e => Err e end)
  | KComplex128 =>
      set_value t (match ParseComplex value_ 128 with Ok (re, im) => Ok (VComplex re im) | Err e => Err e end)
  | KBool =>
      set_value t (match ParseBool value_ with Ok b => Ok (VBool b) | Err e => Err e end)
  | KSlice | KMap | KStruct =>
      match json_Unmarshal t value_ with
      | Err e => Failed e
      | Ok x => Stored x
      end
  | KString => set_value t (Ok (VString value_))
  | k => set_value t (Err (ErrOther ("'" ++ kind_string k ++ "' not supported")))
  end.

End SetField.
End Snapshot0.

(** ** The previous version: src/loader.go *)

Module LoaderV1.
Section V1.

Variable ParseFloat : string -> Z -> result Z.
Variable ParseComplex : string -> Z -> result (Z * Z).
Variable json_Unmarshal : gotype -> string -> result value.

(** [type parser func(t reflect.Type, val string) (interface{}, error)] *)
Definition parser := gotype -> string -> result value.

Definition intBitSizeMap (k : kind) : Z :=
  match k with
  | KInt => 0 | KInt16 => 16 | KInt32 => 32 | KInt64 => 64
  | KUint => 0 | KUint16 => 16 | KUint32 => 32 | KUint64 => 64
  | _ => 0
  end.

Definition floatBitSizeMap (k : kind) : Z :=
  match k with KFloat32 => 32 | KFloat64 => 64 | _ => 0 end.

Definition complexBitSizeMap (k : kind) : Z :=
  match k with KComplex64 => 64 | KComplex128 => 128 | _ => 0 end.

Definition intParser : parser := fun t val =>
  match ParseInt val (intBitSizeMap (kind_of t)) with
  | Err e => Err e
  | Ok i => if kind_eqb (kind_of t) KInt64 then Ok (VInt i) else Ok (convert_int t i)
  end.

Definition uintParser : parser := fun t val =>
  match ParseUint val (intBitSizeMap (kind_of t)) with
  | Err e => Err e
  | Ok i => if kind_eqb (kind_of t) KUint64 then Ok (VUint i) else Ok (convert_uint t i)
  end.

Definition floatParser : parser := fun t val =>
  match ParseFloat val (floatBitSizeMap (kind_of t)) with
  | Err e => Err e
  | Ok f => Ok (VFloat f)
  end.

Definition complexParser : parser := fun t val =>
  match ParseComplex val (complexBitSizeMap (kind_of t)) with
  | Err e => Err e
  | Ok (re, im) => Ok (VComplex re im)
  end.

Definition jsonParser : parser := fun t val =>
  match json_Unmarshal t val with
  | Err e => Err e
  | Ok v => Ok (VRef v)
  end.

Definition parsers (k : kind) : option parser :=
  match k with
  | KUint | KUint8 | KUint16 | KUint32 | KUint64 => Some uintParser
  | KInt | KInt8 | KInt16 | KInt32 | KInt64 => Some intParser
  | KFloat32 | KFloat64 => Some floatParser
  | KComplex64 | KComplex128 => Some complexParser
  | KBool => Some (fun t val => match ParseBool val with Err e => Err e | Ok b => Ok (VBool b) end)
  | KString => Some (fun t val => Ok (VString val))
  | KSlice | KMap | KStruct => Some jsonParser
  | _ => None
  end.

Variable env : gmap string string.

(** [getEnv]: the named results [val], [ok] *)
Definition getEnv (st : structField) : string * bool :=
  let '(StructField _ _ tg _) := st in
  match tag_Lookup tg varTag with
  | Some v => LookupEnv env v
  | None => (""%string, false)
  end.

Definition hasEnvVal (elem : gotype) : bool :=
  match elem with
  | TStruct _ fs => existsb (fun st => snd (getEnv st)) fs
  | _ => false
  end.

Definition load_field (rec : gotype -> value -> value * option goerror)
    (structField : structField) (fv : value) : value * option goerror :=
  let '(StructField _ PkgPath _ ft) := structField in
  if negb (String.eqb PkgPath "") then (fv, None) else
  let '(envVal, ok) := getEnv structField in
  if ok then
    let '(fieldType, fieldValue, wrap) := bind_target ft fv in
    match parsers (kind_of fieldType) with
    | Some p =>
        match p fieldType envVal with
        | Err err => (wrap fieldValue, Some err)
        | Ok itf => (wrap (Indirect itf), None)
        end
    | None => (wrap fieldValue, None)
    end
  else
    match ft, fv with
    | TPtr e, VNil =>
        if kind_eqb (kind_of e) KStruct && hasEnvVal e then
          let '(w, err) := rec e (zero_value e) in (VRef w, err)
        else (fv, None)
    | TPtr e, VRef w =>
        if kind_eqb (kind_of e) KStruct then
          let '(w', err) := rec e w in (VRef w', err)
        else (fv, None)
    | _, _ =>
        if kind_eqb (kind_of ft) KStruct then rec ft fv else (fv, None)
    end.

Fixpoint load_fields (rec : gotype -> value -> value * option goerror)
    (fs : list structField) (vs : list value) : list value * option goerror :=
  match fs, vs with
  | st :: fs', fv :: vs' =>
      let '(fv', err) := load_field rec st fv in
      match err with
      | Some e => (fv' :: vs', Some e)
      | None => let '(vs'', err') := load_fields rec fs' vs' in (fv' :: vs'', err')
      end
  | _, _ => (vs, None)
  end.

Fixpoint loadEnv (t : gotype) (v : value) {struct t} : value * option goerror :=
  match t, v with
  | TStruct _ fs, VStruct vs =>
      let '(vs', err) := load_fields loadEnv fs vs in (VStruct vs', err)
  | _, _ => (v, None)
  end.

End V1.
End LoaderV1.

(** ** Deep properties of a struct type *)

Definition field_type (st : structField) : gotype :=
  let '(StructField _ _ _ ft) := st in ft.

(** the pointee type of a pointer type, any other type itself *)
Definition elem_or_self (t : gotype) : gotype :=
  match t with
  | TPtr e => e
  | _ => t
  end.

(** no field, at any depth, is tagged [env_var:""] *)
Fixpoint no_empty_var_tags (t : gotype) : bool :=
  match t with
  | TNamed _ _ => true
  | TStruct _ fs =>
      forallb (fun st => match st with
                         | StructField _ _ tg ft =>
                             negb (empty_var_tag (StructField "" "" tg ft)) && no_empty_var_tags ft
                         end) fs
  | TPtr e => no_empty_var_tags e
  end.

(** no field, at any depth, has a satisfied annotation or an empty one *)
Fixpoint silent (env : gmap string string) (t : gotype) : bool :=
  match t with
  | TNamed _ _ => true
  | TStruct _ fs =>
      forallb (fun st => match st with
                         | StructField nm pk tg ft =>
                             negb (satisfied env (StructField nm pk tg ft)) &&
                             negb (empty_var_tag (StructField nm pk tg ft)) && silent env ft
                         end) fs
  | TPtr e => silent env e
  end.

(** Induction over struct types through their fields, and through the
    pointee of a pointer field. *)
Fixpoint gotype_deep_ind (P : gotype -> Prop)
    (HN : forall n k, P (TNamed n k))
    (HS : forall n fs, Forall (fun st => P (field_type st) /\ P (elem_or_self (field_type st))) fs ->
                       P (TStruct n fs))
    (HP : forall e, P e -> P (TPtr e))
    (t : gotype) {struct t} : P t :=
  match t with
  | TNamed n k => HN n k
  | TStruct n fs =>
      HS n fs
        ((fix go (fs : list structField)
            : Forall (fun st => P (field_type st) /\ P (elem_or_self (field_type st))) fs :=
            match fs as l
              return Forall (fun st => P (field_type st) /\ P (elem_or_self (field_type st))) l with
            | [] => List.Forall_nil _
            | st :: fs' =>
                match st as st0
                  return Forall (fun st => P (field_type st) /\ P (elem_or_self (field_type st)))
                                (st0 :: fs') with
                | StructField a b c ft =>
                List.Forall_cons _ (StructField a b c ft) fs'
                  (conj (gotype_deep_ind P HN HS HP ft)
                        (match ft as ft' return P ft' -> P (elem_or_self ft') with
                         | TPtr e => fun _ => gotype_deep_ind P HN HS HP e
                         | TNamed _ _ => fun h => h
                         | TStruct _ _ => fun h => h
                         end (gotype_deep_ind P HN HS HP ft)))
                  (go fs')
                end
            end) fs)
  | TPtr e => HP e (gotype_deep_ind P HN HS HP e)
  end.

(** * Properties *)

(** ** strconv in base 10 *)

(** turn boolean comparisons of [Z] in the context into propositions *)
Ltac zbool :=
  repeat match goal with
  | H : (_ && _) = true |- _ => apply andb_true_iff in H as [? ?]
  | H : (_ && _) = false |- _ => apply andb_false_iff in H as [?|?]
  | H : (_ || _) = true |- _ => apply orb_true_iff in H as [?|?]
  | H : (_ || _) = false |- _ => apply orb_false_iff in H as [? ?]
  | H : negb _ = true |- _ => apply negb_true_iff in H
  | H : negb _ = false |- _ => apply negb_false_iff in H
  | H : (_ <=? _) = true |- _ => apply Z.leb_le in H
  | H : (_ <=? _) = false |- _ => apply Z.leb_gt in H
  | H : (_ <? _) = true |- _ => apply Z.ltb_lt in H
  | H : (_ <? _) = false |- _ => apply Z.ltb_ge in H
  | H : (_ =? _) = true |- _ => apply Z.eqb_eq in H
  | H : (_ =? _) = false |- _ => apply Z.eqb_neq in H
  end.

Lemma digit_val_range (c : ascii) (d : Z) : digit_val c = Some d -> 0 <= d <= 9.
Proof.
  unfold digit_val. intros H.
  destruct ((0 <=? _) && (_ <=? 9)) eqn:E; [|discriminate].
  injection H as <-. apply andb_true_iff in E as [E1 E2]. lia.
Qed.

Lemma dec_value_from_ge (s : string) (n : Z) : 0 <= n -> n <= dec_value_from n s.
Proof.
  revert n; induction s as [|c rest IH]; intros n Hn; simpl; [lia|].
  assert (0 <= match digit_val c with Some d => d | None => 0 end).
  { destruct (digit_val c) eqn:E; [apply digit_val_range in E|]; lia. }
  specialize (IH (n * 10 + match digit_val c with Some d => d | None => 0 end)). lia.
Qed.

Lemma dec_value_nonneg (s : string) : 0 <= dec_value s.
Proof. apply dec_value_from_ge; lia. Qed.

(** the digit loop on a text of digits: the value, or a range error when
    it exceeds [maxVal] *)
Lemma parse_digits_all_digits (s : string) (maxVal n : Z) :
  all_digits s = true -> 0 <= n <= maxVal ->
  parse_digits maxVal n s =
  if dec_value_from n s <=? maxVal then Ok (dec_value_from n s) else Err (ErrRange "" "").
Proof.
  revert n; induction s as [|c rest IH]; intros n Hd Hn; simpl.
  - destruct (n <=? maxVal) eqn:E; [reflexivity|lia].
  - simpl in Hd. apply andb_true_iff in Hd as [Hc Hd].
    destruct (digit_val c) as [d|] eqn:Ed; [|discriminate].
    pose proof (digit_val_range c d Ed).
    destruct (maxVal <? n * 10 + d) eqn:Em.
    + pose proof (dec_value_from_ge rest (n * 10 + d)).
      destruct (dec_value_from (n * 10 + d) rest <=? maxVal) eqn:E2; [lia|reflexivity].
    + apply IH; [assumption|lia].
Qed.

Lemma all_digits_head (c : ascii) (r : string) :
  all_digits (String c r) = true -> is_Some (digit_val c).
Proof. simpl. intros H. apply andb_true_iff in H as [H _]. now apply bool_decide_eq_true in H. Qed.

(** a digit is neither of the sign characters *)
Lemma digit_not_sign (c : ascii) (r : string) :
  is_Some (digit_val c) ->
  match String c r with
  | String "+" r => (false, r)
  | String "-" r => (true, r)
  | _ => (false, String c r)
  end = (false, String c r).
Proof.
  intros [d H]. destruct c as [[] [] [] [] [] [] [] []];
    vm_compute in H; try discriminate; reflexivity.
Qed.

Lemma ParseUint_digits (s : string) (bitSize : Z) :
  s <> ""%string -> all_digits s = true -> 0 <= bitSize <= 64 ->
  ParseUint s bitSize =
  let w := if bitSize =? 0 then 64 else bitSize in
  if dec_value s <=? 2 ^ w - 1 then Ok (dec_value s) else Err (ErrRange "ParseUint" s).
Proof.
  intros Hne Hd Hb. unfold ParseUint, IntSize.
  destruct (String.eqb_spec s "") as [|_]; [contradiction|].
  set (w := if bitSize =? 0 then 64 else bitSize).
  assert (Hw : 0 <= w <= 64) by (subst w; destruct (bitSize =? 0); lia).
  destruct ((w <? 0) || (64 <? w)) eqn:E; [apply orb_true_iff in E; lia|].
  assert (0 <= 2 ^ w - 1) by (pose proof (Z.pow_pos_nonneg 2 w); lia).
  rewrite parse_digits_all_digits by (auto; lia). unfold dec_value.
  destruct (dec_value_from 0 s <=? 2 ^ w - 1); reflexivity.
Qed.

Lemma pow_half (w : Z) : 1 <= w -> 2 ^ w = 2 * 2 ^ (w - 1).
Proof.
  intros. replace w with (Z.succ (w - 1)) at 1 by lia.
  rewrite Z.pow_succ_r by lia. reflexivity.
Qed.

(** [ParseInt] on an optional sign and a text of digits: the signed value
    when it fits in [w] bits, else a range error *)
Lemma ParseInt_signed_digits (sign digits : string) (bitSize : Z) :
  In sign [""%string; "+"%string; "-"%string] ->
  digits <> ""%string -> all_digits digits = true ->
  bitSize = 0 \/ 2 <= bitSize <= 64 ->
  ParseInt (sign ++ digits)%string bitSize =
  let w := if bitSize =? 0 then 64 else bitSize in
  let z := signed_value sign digits in
  if (- 2 ^ (w - 1) <=? z) && (z <? 2 ^ (w - 1)) then Ok z
  else Err (ErrRange "ParseInt" (sign ++ digits)%string).
Proof.
  intros Hs Hne Hd Hb.
  assert (Hne0 : String.eqb (sign ++ digits)%string "" = false).
  { destruct sign; [destruct digits; [contradiction|reflexivity]|reflexivity]. }
  assert (Hsplit : match (sign ++ digits)%string with
                   | String "+" r => (false, r)
                   | String "-" r => (true, r)
                   | _ => (false, (sign ++ digits)%string)
                   end = (String.eqb sign "-", digits)).
  { destruct Hs as [<-|[<-|[<-|[]]]]; [|reflexivity|reflexivity].
    destruct digits as [|c r]; [contradiction|].
    apply digit_not_sign, (all_digits_head c r Hd). }
  unfold ParseInt. rewrite Hne0, Hsplit.
  rewrite (ParseUint_digits digits bitSize Hne Hd ltac:(lia)).
  unfold IntSize, signed_value.
  set (w := if bitSize =? 0 then 64 else bitSize).
  assert (Hw : 2 <= w <= 64) by (subst w; destruct (bitSize =? 0) eqn:E;
                                 [|apply Z.eqb_neq in E]; lia).
  pose proof (pow_half w ltac:(lia)) as Hp.
  assert (H4 : 2 <= 2 ^ (w - 1)).
  { replace 2 with (2 ^ 1) at 1 by reflexivity. apply Z.pow_le_mono_r; lia. }
  pose proof (dec_value_nonneg digits) as Hv.
  set (v := dec_value digits) in *.
  clear Hsplit Hne0. destruct (String.eqb sign "-"); repeat case_match; zbool;
    repeat match goal with H : Ok _ = Ok _ |- _ => injection H as H end; subst; try congruence; lia.
Qed.

(** the two's complement wrap-around leaves a value of [w] bits alone *)
Lemma wrap_signed_small (w z : Z) :
  1 <= w -> - 2 ^ (w - 1) <= z < 2 ^ (w - 1) -> wrap_signed w z = z.
Proof.
  intros Hw Hz. unfold wrap_signed; cbv zeta. pose proof (pow_half w Hw) as Hp.
  destruct (Z.leb_spec 0 z).
  - rewrite Z.mod_small by lia. destruct (Z.leb_spec (2 ^ (w - 1)) z); lia.
  - rewrite <- (Z.mod_unique z (2 ^ w) (-1) (z + 2 ^ w)) by lia.
    destruct (Z.leb_spec (2 ^ (w - 1)) (z + 2 ^ w)); lia.
Qed.

Lemma wrap_unsigned_small (w z : Z) : 0 <= z < 2 ^ w -> wrap_unsigned w z = z.
Proof. intros. unfold wrap_unsigned. apply Z.mod_small; lia. Qed.

Section Theory.

Variable ParseFloat : string -> Z -> result Z.
Variable ParseComplex : string -> Z -> result (Z * Z).
Variable json_Unmarshal : gotype -> string -> result value.
Variable kwParsers : gmap string Parser.
Variable typeParsers : gotype -> option Parser.
Variable kindParsers : kind -> option Parser.

Local Abbreviation LOAD env :=
  (loadEnv ParseFloat ParseComplex json_Unmarshal kwParsers typeParsers kindParsers env).
Local Abbreviation FIELD env :=
  (load_field ParseFloat ParseComplex json_Unmarshal kwParsers typeParsers kindParsers env (LOAD env)).
Local Abbreviation FIELDS env :=
  (load_fields ParseFloat ParseComplex json_Unmarshal kwParsers typeParsers kindParsers env (LOAD env)).
Local Abbreviation GETPARSER :=
  (getParser ParseFloat ParseComplex json_Unmarshal kwParsers typeParsers kindParsers).

(** ** getEnv *)

Lemma getEnv_ok (env : gmap string string) (st : structField) :
  ok (getEnv env st) = satisfied env st || empty_var_tag st.
Proof.
  destruct st as [nm pkg tg ft]; unfold getEnv, satisfied, empty_var_tag.
  destruct (tag_Lookup tg varTag) as [n|]; [|reflexivity].
  destruct (String.eqb_spec n "") as [->|Hn]; [reflexivity|].
  simpl. unfold LookupEnv.
  destruct (env !! n) eqn:E; repeat case_match; simpl in *; congruence.
Qed.

Lemma getEnv_congr (env1 env2 : gmap string string) (st : structField) :
  (forall n, tag_Lookup (let '(StructField _ _ tg _) := st in tg) varTag = Some n ->
             env1 !! n = env2 !! n) ->
  getEnv env1 st = getEnv env2 st.
Proof.
  destruct st as [nm pkg tg ft]; intros Hag; unfold getEnv.
  destruct (tag_Lookup tg varTag) as [n|] eqn:E; [|reflexivity].
  unfold LookupEnv. rewrite (Hag n eq_refl). reflexivity.
Qed.

Lemma satisfied_ok (env : gmap string string) (st : structField) :
  satisfied env st = true -> ok (getEnv env st) = true.
Proof. intros H. rewrite getEnv_ok, H. reflexivity. Qed.

Lemma not_satisfied_ok (env : gmap string string) (st : structField) :
  satisfied env st = false -> empty_var_tag st = false -> ok (getEnv env st) = false.
Proof. intros H1 H2. rewrite getEnv_ok, H1, H2. reflexivity. Qed.

Lemma hasEnvVal_satisfied (env : gmap string string) (n : string) (fs : list structField) :
  Forall (fun st => empty_var_tag st = false) fs ->
  hasEnvVal env (TStruct n fs) = existsb (satisfied env) fs.
Proof.
  intros Hf. unfold hasEnvVal. induction Hf as [|st fs Hst Hfs IH]; [reflexivity|].
  simpl. rewrite getEnv_ok, Hst, orb_false_r, IH. reflexivity.
Qed.

(** ** The field loop *)

Lemma loadEnv_struct (env : gmap string string) (n : string) (fs : list structField) (vs : list value) :
  LOAD env (TStruct n fs) (VStruct vs) =
  let '(vs', err) := FIELDS env fs vs in (VStruct vs', err).
Proof. reflexivity. Qed.

Lemma load_fields_app (env : gmap string string) (pre post : list structField) (vpre vpost : list value) :
  List.length pre = List.length vpre ->
  FIELDS env (List.app pre post) (List.app vpre vpost) =
  match FIELDS env pre vpre with
  | (vpre', Some e) => (List.app vpre' vpost, Some e)
  | (vpre', None) => let '(vpost', e) := FIELDS env post vpost in (List.app vpre' vpost', e)
  end.
Proof.
  revert vpre. induction pre as [|st pre IH]; intros [|fv vpre] Hlen; simpl in *; try lia.
  - destruct (FIELDS env post vpost); reflexivity.
  - destruct (FIELD env st fv) as [fv' [e|]]; [reflexivity|].
    rewrite IH by lia.
    destruct (FIELDS env pre vpre) as [vpre' [e|]]; [reflexivity|].
    destruct (FIELDS env post vpost); reflexivity.
Qed.

Lemma kind_eqb_true (a b : kind) : kind_eqb a b = true -> a = b.
Proof. destruct a, b; simpl; congruence. Qed.

Lemma kind_eqb_refl (a : kind) : kind_eqb a a = true.
Proof. destruct a; reflexivity. Qed.

Lemma load_field_bound (env : gmap string string) (nm : string) (tg : tag) (ft : gotype) (fv : value) :
  ok (getEnv env (StructField nm "" tg ft)) = true ->
  FIELD env (StructField nm "" tg ft) fv =
  let '(fieldType, fieldValue, wrap) := bind_target ft fv in
  match GETPARSER (parserKw (getEnv env (StructField nm "" tg ft))) fieldType with
  | Some p =>
      match p fieldType (val (getEnv env (StructField nm "" tg ft)))
              (params (getEnv env (StructField nm "" tg ft)))
              (kwParams (getEnv env (StructField nm "" tg ft))) with
      | Err err => (wrap fieldValue, Some err)
      | Ok itf => (wrap (Indirect itf), None)
      end
  | None => (wrap fieldValue, None)
  end.
Proof. intros Hok. unfold load_field. simpl negb. cbv iota. rewrite Hok. reflexivity. Qed.

Lemma load_field_unbound (env : gmap string string) (nm : string) (tg : tag) (ft : gotype) (fv : value) :
  ok (getEnv env (StructField nm "" tg ft)) = false ->
  FIELD env (StructField nm "" tg ft) fv =
  match ft, fv with
  | TPtr e, VNil =>
      if kind_eqb (kind_of e) KStruct && hasEnvVal env e then
        let '(w, err) := LOAD env e (zero_value e) in (VRef w, err)
      else (fv, None)
  | TPtr e, VRef w =>
      if kind_eqb (kind_of e) KStruct then
        let '(w', err) := LOAD env e w in (VRef w', err)
      else (fv, None)
  | _, _ =>
      if kind_eqb (kind_of ft) KStruct then LOAD env ft fv else (fv, None)
  end.
Proof. intros Hok. unfold load_field. simpl negb. cbv iota. rewrite Hok. reflexivity. Qed.

(** ** Claims *)

(** C4: the parser of a field is resolved first-match-wins over the four
    layers keyword table, exact-type table, kind table, built-in kind
    defaults; in particular, when the field's keyword has an entry in the
    keyword table, that parser's result is what is written into the
    field, whatever the other layers hold. *)
Theorem C4_parser_precedence :
  (forall (keyword : string) (t : gotype),
      GETPARSER keyword t =
      first_match (registry_layers ParseFloat ParseComplex json_Unmarshal
                     kwParsers typeParsers kindParsers keyword t)) /\
  (forall (env : gmap string string) (nm : string) (tg : tag) (ft : gotype) (fv : value)
          (p : Parser) (itf : value),
      satisfied env (StructField nm "" tg ft) = true ->
      parserKw (getEnv env (StructField nm "" tg ft)) <> ""%string ->
      kwParsers !! parserKw (getEnv env (StructField nm "" tg ft)) = Some p ->
      p (target_type ft fv) (val (getEnv env (StructField nm "" tg ft)))
        (params (getEnv env (StructField nm "" tg ft)))
        (kwParams (getEnv env (StructField nm "" tg ft))) = Ok itf ->
      FIELD env (StructField nm "" tg ft) fv =
      (let '(_, _, wrap) := bind_target ft fv in wrap (Indirect itf), None)).
Proof.
  split.
  - intros keyword t. unfold getParser, registry_layers, first_match; simpl.
    destruct (String.eqb keyword "") eqn:Ek; simpl.
    + destruct (typeParsers t); [reflexivity|].
      destruct (kindParsers (kind_of t)); [reflexivity|].
      destruct (parsers _ _ _ _); reflexivity.
    + destruct (kwParsers !! keyword); [reflexivity|].
      destruct (typeParsers t); [reflexivity|].
      destruct (kindParsers (kind_of t)); [reflexivity|].
      destruct (parsers _ _ _ _); reflexivity.
  - intros env nm tg ft fv p itf Hs Hkw Hp Hrun.
    rewrite load_field_bound by (apply satisfied_ok; exact Hs).
    unfold target_type in Hrun.
    destruct (bind_target ft fv) as [[fieldType fieldValue] wrap].
    unfold getParser.
    apply String.eqb_neq in Hkw. rewrite Hkw. cbn [negb]. rewrite Hp, Hrun.
    reflexivity.
Qed.

(** C6: when the coercion of a field fails, the call returns that error
    and stops: the fields before it keep the values assigned to them in
    this call, the fields after it keep the values they had before. *)
Theorem C6_first_error_stops (env : gmap string string) (n : string)
    (pre post : list structField) (f : structField)
    (vpre vpost vpre' : list value) (fv fv' : value) (e : goerror) :
  List.length pre = List.length vpre ->
  FIELDS env pre vpre = (vpre', None) ->
  FIELD env f fv = (fv', Some e) ->
  LOAD env (TStruct n (pre ++ f :: post)%list) (VStruct (vpre ++ fv :: vpost)%list) =
  (VStruct (vpre' ++ fv' :: vpost)%list, Some e).
Proof.
  intros Hlen Hpre Hf.
  rewrite loadEnv_struct, load_fields_app by exact Hlen.
  rewrite Hpre. simpl. rewrite Hf. reflexivity.
Qed.

(** C8: a satisfied field for which no layer of the registry has a parser
    does not make the call fail (the call fails exactly when it fails
    without that field), and no value is bound into the field: it keeps
    its value, or, a nil pointer, is left allocated to a zero value. *)
Theorem C8_no_parser_no_error (env : gmap string string) (n : string)
    (pre post : list structField) (vpre vpost : list value)
    (nm pk : string) (tg : tag) (ft : gotype) (fv : value) :
  List.length pre = List.length vpre ->
  satisfied env (StructField nm pk tg ft) = true ->
  GETPARSER (parserKw (getEnv env (StructField nm pk tg ft))) (target_type ft fv) = None ->
  snd (LOAD env (TStruct n (pre ++ StructField nm pk tg ft :: post)%list)
            (VStruct (vpre ++ fv :: vpost)%list)) =
  snd (LOAD env (TStruct n (pre ++ post)%list) (VStruct (vpre ++ vpost)%list)) /\
  (fst (FIELD env (StructField nm pk tg ft) fv) = fv \/
   (fv = VNil /\ exists e, ft = TPtr e /\
      fst (FIELD env (StructField nm pk tg ft) fv) = VRef (zero_value e))).
Proof.
  intros Hlen Hs Hnone.
  assert (Hf : exists fv', FIELD env (StructField nm pk tg ft) fv = (fv', None) /\
                 (fv' = fv \/ (fv = VNil /\ exists e, ft = TPtr e /\ fv' = VRef (zero_value e)))).
  { destruct (String.eqb pk "") eqn:Epk.
    - apply String.eqb_eq in Epk; subst pk.
      rewrite load_field_bound by (apply satisfied_ok; exact Hs).
      unfold target_type in Hnone.
      destruct ft as [tn k|sn fs|e]; [ | | destruct fv];
        cbn [bind_target] in Hnone |- *; rewrite Hnone; eauto 10.
    - unfold load_field. rewrite Epk. simpl. eauto. }
  destruct Hf as (fv' & Hf & Hv).
  rewrite Hf. cbn [fst]. split; [|exact Hv].
  rewrite !loadEnv_struct, !load_fields_app by exact Hlen.
  destruct (FIELDS env pre vpre) as [vpre' [e|]]; [reflexivity|].
  cbn [load_fields]. rewrite Hf.
  destruct (FIELDS env post vpost); reflexivity.
Qed.

(** C10: a nil pointer field with a satisfied annotation is allocated
    (to a pointer to the zero value of its element type) before the
    registry is consulted: when no parser is found the call goes on and
    the field is a non-nil pointer to a zero value; the allocation also
    stays when the parser fails. *)
Theorem C10_nil_ptr_allocated_first (env : gmap string string) (nm : string) (tg : tag) (e : gotype) :
  satisfied env (StructField nm "" tg (TPtr e)) = true ->
  (GETPARSER (parserKw (getEnv env (StructField nm "" tg (TPtr e)))) e = None ->
   FIELD env (StructField nm "" tg (TPtr e)) VNil = (VRef (zero_value e), None)) /\
  (forall (p : Parser) (err : goerror),
      GETPARSER (parserKw (getEnv env (StructField nm "" tg (TPtr e)))) e = Some p ->
      p e (val (getEnv env (StructField nm "" tg (TPtr e))))
        (params (getEnv env (StructField nm "" tg (TPtr e))))
        (kwParams (getEnv env (StructField nm "" tg (TPtr e)))) = Err err ->
      FIELD env (StructField nm "" tg (TPtr e)) VNil = (VRef (zero_value e), Some err)).
Proof.
  intros Hs.
  rewrite load_field_bound by (apply satisfied_ok; exact Hs).
  cbn [bind_target].
  split.
  - intros Hnone. rewrite Hnone. reflexivity.
  - intros p err Hp Herr. rewrite Hp, Herr. reflexivity.
Qed.

(** C2 (as the code does it): a nil pointer to a struct, in an exported
    field whose own annotation is not satisfied, is allocated exactly when
    one of the struct's direct fields (one level, exported or not) has a
    satisfied annotation, and the new zero struct is then loaded by the
    recursive call, whose result and error the field takes; otherwise it
    stays nil.  Fields tagged [env_var:""] are left out. *)
Theorem C2_nil_ptr_one_level_lookahead (env : gmap string string) (nm : string) (tg : tag)
    (sn : string) (fs : list structField) :
  satisfied env (StructField nm "" tg (TPtr (TStruct sn fs))) = false ->
  empty_var_tag (StructField nm "" tg (TPtr (TStruct sn fs))) = false ->
  Forall (fun st => empty_var_tag st = false) fs ->
  FIELD env (StructField nm "" tg (TPtr (TStruct sn fs))) VNil =
  (if existsb (satisfied env) fs then
     let '(w, err) := LOAD env (TStruct sn fs) (zero_value (TStruct sn fs)) in (VRef w, err)
   else (VNil, None)) /\
  (fst (FIELD env (StructField nm "" tg (TPtr (TStruct sn fs))) VNil) = VNil <->
   existsb (satisfied env) fs = false).
Proof.
  intros Hs He Hfs.
  rewrite load_field_unbound by (apply not_satisfied_ok; assumption).
  cbn [kind_of kind_eqb andb].
  rewrite hasEnvVal_satisfied by exact Hfs.
  destruct (existsb (satisfied env) fs).
  - destruct (LOAD env (TStruct sn fs) (zero_value (TStruct sn fs))) as [w err].
    cbn [fst]. split; [reflexivity|]. split; intros H; discriminate.
  - cbn [fst]. split; [reflexivity|]. split; intros H; reflexivity.
Qed.

(** C3 (as the code does it): a field with a satisfied annotation is bound
    from its one variable alone, the annotations inside it are not
    consulted (its result does not depend on any other variable); an
    exported struct field, by value or behind a non-nil pointer, whose
    annotation is not satisfied (none, or naming an unset variable) is
    recursed into; behind a nil pointer it is allocated and recursed into
    exactly when one of its direct fields has a satisfied annotation, else
    the pointer stays nil.  Fields tagged [env_var:""] are left out. *)
Theorem C3_recursion_iff_not_satisfied :
  (forall (env1 env2 : gmap string string) (nm pk : string) (tg : tag) (ft : gotype) (fv : value),
      satisfied env1 (StructField nm pk tg ft) = true ->
      (forall n, tag_Lookup tg varTag = Some n -> env1 !! n = env2 !! n) ->
      FIELD env1 (StructField nm pk tg ft) fv = FIELD env2 (StructField nm pk tg ft) fv) /\
  (forall (env : gmap string string) (nm : string) (tg : tag) (sn : string)
          (fs : list structField) (vs : list value),
      satisfied env (StructField nm "" tg (TStruct sn fs)) = false ->
      empty_var_tag (StructField nm "" tg (TStruct sn fs)) = false ->
      FIELD env (StructField nm "" tg (TStruct sn fs)) (VStruct vs) =
      LOAD env (TStruct sn fs) (VStruct vs)) /\
  (forall (env : gmap string string) (nm : string) (tg : tag) (sn : string)
          (fs : list structField) (w : value),
      satisfied env (StructField nm "" tg (TPtr (TStruct sn fs))) = false ->
      empty_var_tag (StructField nm "" tg (TPtr (TStruct sn fs))) = false ->
      FIELD env (StructField nm "" tg (TPtr (TStruct sn fs))) (VRef w) =
      let '(w', err) := LOAD env (TStruct sn fs) w in (VRef w', err)) /\
  (forall (env : gmap string string) (nm : string) (tg : tag) (sn : string)
          (fs : list structField),
      satisfied env (StructField nm "" tg (TPtr (TStruct sn fs))) = false ->
      empty_var_tag (StructField nm "" tg (TPtr (TStruct sn fs))) = false ->
      Forall (fun st => empty_var_tag st = false) fs ->
      FIELD env (StructField nm "" tg (TPtr (TStruct sn fs))) VNil =
      if existsb (satisfied env) fs then
        let '(w, err) := LOAD env (TStruct sn fs) (zero_value (TStruct sn fs)) in (VRef w, err)
      else (VNil, None)).
Proof.
  split; [|split; [|split]].
  - intros env1 env2 nm pk tg ft fv Hs Hag.
    assert (Hge : getEnv env1 (StructField nm pk tg ft) = getEnv env2 (StructField nm pk tg ft))
      by (apply getEnv_congr; exact Hag).
    pose proof (satisfied_ok _ _ Hs) as Hok.
    unfold load_field. rewrite <- Hge, Hok. reflexivity.
  - intros env nm tg sn fs vs Hs He.
    rewrite load_field_unbound by (apply not_satisfied_ok; assumption).
    reflexivity.
  - intros env nm tg sn fs w Hs He.
    rewrite load_field_unbound by (apply not_satisfied_ok; assumption).
    reflexivity.
  - intros env nm tg sn fs Hs He Hfs.
    rewrite load_field_unbound by (apply not_satisfied_ok; assumption).
    cbn [kind_of kind_eqb andb].
    rewrite hasEnvVal_satisfied by exact Hfs.
    reflexivity.
Qed.

End Theory.

(** C9: [LoadEnvUserParser] panics, before touching any field, unless its
    argument is a non-nil pointer to a struct. *)
Theorem C9_invalid_target_panics ParseFloat ParseComplex json_Unmarshal
    (keywordParsers : gmap string Parser) (typeParsers : gotype -> option Parser)
    (kindParsers : kind -> option Parser) (env : gmap string string)
    (itf : option (gotype * value)) :
  (forall e w, itf = Some (TPtr e, VRef w) -> kind_of e <> KStruct) ->
  exists msg, LoadEnvUserParser ParseFloat ParseComplex json_Unmarshal
                keywordParsers typeParsers kindParsers env itf = (itf, Panic msg).
Proof.
  intros Hnot.
  destruct itf as [[t v]|]; [|eexists; reflexivity].
  destruct t as [tn k|sn fs|e]; try (eexists; reflexivity).
  destruct v; try (eexists; reflexivity).
  unfold LoadEnvUserParser.
  destruct (kind_eqb (kind_of e) KStruct) eqn:Ek.
  - exfalso. apply (Hnot e v eq_refl). apply kind_eqb_true. exact Ek.
  - eexists; reflexivity.
Qed.

(** * Further properties of the code *)

Section Extras.

Variable ParseFloat : string -> Z -> result Z.
Variable ParseComplex : string -> Z -> result (Z * Z).
Variable json_Unmarshal : gotype -> string -> result value.

(** ** The built-in integer parsers *)

(** X1: a signed field of kind [int], [int16], [int32] or [int64] given an
    optional sign and decimal digits gets exactly that number when it fits
    the field's width, and a range error of [ParseInt] otherwise. *)
Theorem intParser_decimal (t : gotype) (sign digits : string) (ps : list string)
    (kw : gmap string string) :
  In (kind_of t) [KInt; KInt16; KInt32; KInt64] ->
  In sign [""%string; "+"%string; "-"%string] ->
  digits <> ""%string -> all_digits digits = true ->
  intParser t (sign ++ digits)%string ps kw =
  let w := if bitSizeMap (kind_of t) =? 0 then 64 else bitSizeMap (kind_of t) in
  let z := signed_value sign digits in
  if (- 2 ^ (w - 1) <=? z) && (z <? 2 ^ (w - 1)) then Ok (VInt z)
  else Err (ErrRange "ParseInt" (sign ++ digits)%string).
Proof.
  intros Hk Hs Hne Hd. unfold intParser.
  assert (Hb : bitSizeMap (kind_of t) = 0 \/ 2 <= bitSizeMap (kind_of t) <= 64)
    by (destruct Hk as [<-|[<-|[<-|[<-|[]]]]]; simpl; lia).
  rewrite (ParseInt_signed_digits sign digits _ Hs Hne Hd Hb). cbv zeta.
  destruct (_ && _) eqn:E; [|reflexivity]. zbool. unfold convert_int.
  destruct Hk as [Hk|[Hk|[Hk|[Hk|[]]]]]; rewrite <- Hk in *; cbn -[Z.pow] in *;
    try reflexivity; rewrite wrap_signed_small by lia; reflexivity.
Qed.

(** X2: [bitSizeMap] has no entry for [int8] and [uint8], so such a field
    is parsed at 64 bits and the result wraps around to 8 bits: an [int8]
    field gets any int64 number modulo 2^8, a [uint8] field any uint64
    number modulo 2^8, without a range error. *)
Theorem small_kinds_parsed_at_64_bits (t : gotype) (sign digits : string)
    (ps : list string) (kw : gmap string string) :
  digits <> ""%string -> all_digits digits = true ->
  (kind_of t = KInt8 -> In sign [""%string; "+"%string; "-"%string] ->
   intParser t (sign ++ digits)%string ps kw =
   let z := signed_value sign digits in
   if (- 2 ^ 63 <=? z) && (z <? 2 ^ 63) then Ok (VInt (wrap_signed 8 z))
   else Err (ErrRange "ParseInt" (sign ++ digits)%string)) /\
  (kind_of t = KUint8 ->
   uintParser t digits ps kw =
   if dec_value digits <=? 2 ^ 64 - 1 then Ok (VUint (wrap_unsigned 8 (dec_value digits)))
   else Err (ErrRange "ParseUint" digits)).
Proof.
  intros Hne Hd. split.
  - intros Hk Hs. unfold intParser. rewrite Hk. change (bitSizeMap KInt8) with 0.
    rewrite (ParseInt_signed_digits sign digits 0 Hs Hne Hd (or_introl eq_refl)).
    unfold convert_int. rewrite Hk.
    cbn -[Z.pow signed_value]. destruct (_ && _); reflexivity.
  - intros Hk. unfold uintParser. rewrite Hk. change (bitSizeMap KUint8) with 0.
    rewrite (ParseUint_digits digits 0 Hne Hd ltac:(lia)).
    unfold convert_uint. rewrite Hk.
    cbn -[Z.pow dec_value]. destruct (_ <=? _); reflexivity.
Qed.

(** X3: an unsigned field of kind [uint], [uint16], [uint32] or [uint64]
    given decimal digits gets exactly that number when it fits the
    field's width, and a range error of [ParseUint] otherwise. *)
Theorem uintParser_decimal (t : gotype) (digits : string) (ps : list string)
    (kw : gmap string string) :
  In (kind_of t) [KUint; KUint16; KUint32; KUint64] ->
  digits <> ""%string -> all_digits digits = true ->
  uintParser t digits ps kw =
  let w := if bitSizeMap (kind_of t) =? 0 then 64 else bitSizeMap (kind_of t) in
  if dec_value digits <=? 2 ^ w - 1 then Ok (VUint (dec_value digits))
  else Err (ErrRange "ParseUint" digits).
Proof.
  intros Hk Hne Hd. unfold uintParser.
  assert (Hb : 0 <= bitSizeMap (kind_of t) <= 64)
    by (destruct Hk as [<-|[<-|[<-|[<-|[]]]]]; simpl; lia).
  rewrite (ParseUint_digits digits _ Hne Hd Hb). cbv zeta.
  pose proof (dec_value_nonneg digits).
  destruct (_ <=? _) eqn:E; [|reflexivity]. zbool. unfold convert_uint.
  destruct Hk as [Hk|[Hk|[Hk|[Hk|[]]]]]; rewrite <- Hk in *; cbn -[Z.pow dec_value] in *;
    try reflexivity; rewrite wrap_unsigned_small by lia; reflexivity.
Qed.

(** X4: an unsigned field never accepts a sign: a value starting with
    [+] or [-] is a syntax error of [ParseUint]. *)
Theorem uintParser_rejects_sign (t : gotype) (sign rest : string) (ps : list string)
    (kw : gmap string string) :
  In (kind_of t) [KUint; KUint8; KUint16; KUint32; KUint64] ->
  In sign ["+"%string; "-"%string] ->
  uintParser t (sign ++ rest)%string ps kw =
  Err (ErrSyntax "ParseUint" (sign ++ rest)%string).
Proof.
  intros Hk Hs. unfold uintParser.
  destruct Hk as [Hk|[Hk|[Hk|[Hk|[Hk|[]]]]]]; rewrite <- Hk;
    destruct Hs as [<-|[<-|[]]]; reflexivity.
Qed.

(** ** [setField] of the second snapshot in part_000 *)

(** X5: for a field of a predeclared signed type, [setField] of the second
    snapshot in part_000 parses at the field's own width, [int8] included:
    it stores the number when it fits, else fails with a range error. *)
Theorem setField_signed_decimal (t : gotype) (sign digits : string) :
  In (kind_of t) [KInt; KInt8; KInt16; KInt32; KInt64] ->
  Snapshot0.predeclared t = true ->
  In sign [""%string; "+"%string; "-"%string] ->
  digits <> ""%string -> all_digits digits = true ->
  Snapshot0.setField ParseFloat ParseComplex json_Unmarshal t (sign ++ digits)%string =
  let w := match kind_of t with KInt8 => 8 | KInt16 => 16 | KInt32 => 32 | _ => 64 end in
  let z := signed_value sign digits in
  if (- 2 ^ (w - 1) <=? z) && (z <? 2 ^ (w - 1)) then Snapshot0.Stored (VInt z)
  else Snapshot0.Failed (ErrRange "ParseInt" (sign ++ digits)%string).
Proof.
  intros Hk Hpd Hs Hne Hd. unfold Snapshot0.setField, Snapshot0.set_value. rewrite Hpd.
  destruct Hk as [Hk|[Hk|[Hk|[Hk|[Hk|[]]]]]]; rewrite <- Hk;
    rewrite ParseInt_signed_digits by (first [assumption | lia]); cbn -[Z.pow signed_value];
    destruct (_ && _) eqn:E; try reflexivity; zbool;
    rewrite wrap_signed_small by lia; reflexivity.
Qed.

(** X6: for a field of a predeclared unsigned type, [setField] of the
    second snapshot in part_000 parses at the field's own width, [uint8]
    included: it stores the number when it fits, else fails with a range
    error. *)
Theorem setField_unsigned_decimal (t : gotype) (digits : string) :
  In (kind_of t) [KUint; KUint8; KUint16; KUint32; KUint64] ->
  Snapshot0.predeclared t = true ->
  digits <> ""%string -> all_digits digits = true ->
  Snapshot0.setField ParseFloat ParseComplex json_Unmarshal t digits =
  let w := match kind_of t with KUint8 => 8 | KUint16 => 16 | KUint32 => 32 | _ => 64 end in
  if dec_value digits <=? 2 ^ w - 1 then Snapshot0.Stored (VUint (dec_value digits))
  else Snapshot0.Failed (ErrRange "ParseUint" digits).
Proof.
  intros Hk Hpd Hne Hd. unfold Snapshot0.setField, Snapshot0.set_value. rewrite Hpd.
  pose proof (dec_value_nonneg digits).
  destruct Hk as [Hk|[Hk|[Hk|[Hk|[Hk|[]]]]]]; rewrite <- Hk;
    rewrite ParseUint_digits by (first [assumption | lia]); cbn -[Z.pow dec_value];
    destruct (_ <=? _) eqn:E; try reflexivity; zbool;
    rewrite wrap_unsigned_small by lia; reflexivity.
Qed.

(** X7: for a field of a predeclared type, or of slice, map or struct
    kind, and of any kind except [int8] and [uint8], the built-in parser
    of the current loader, followed by [reflect.Indirect], yields what
    [setField] of the second snapshot in part_000 stores, and fails with
    the same error. *)
Theorem setField_agrees_with_parsers (t : gotype) (s : string) (ps : list string)
    (kw : gmap string string) (p : Parser) :
  kind_of t <> KInt8 -> kind_of t <> KUint8 ->
  Snapshot0.predeclared t = true \/ In (kind_of t) [KSlice; KMap; KStruct] ->
  parsers ParseFloat ParseComplex json_Unmarshal (kind_of t) = Some p ->
  Snapshot0.setField ParseFloat ParseComplex json_Unmarshal t s =
  match p t s ps kw with
  | Ok itf => Snapshot0.Stored (Indirect itf)
  | Err e => Snapshot0.Failed e
  end.
Proof.
  intros H8 H8u Hpd Hp. unfold Snapshot0.setField, Snapshot0.set_value.
  destruct Hpd as [Hpd|Hin].
  - rewrite Hpd.
    destruct (kind_of t) eqn:Hk; cbn in Hp; try congruence; injection Hp as <-;
      unfold intParser, uintParser, floatParser, complexParser, jsonParser, boolParser,
        stringParser, convert_int, convert_uint;
      rewrite ?Hk; cbn -[ParseInt ParseUint ParseBool Z.pow];
      repeat case_match; cbn in *;
      repeat match goal with H : Ok _ = Ok _ |- _ => injection H as H end; subst; cbn; congruence.
  - destruct Hin as [Hk|[Hk|[Hk|[]]]]; rewrite <- Hk in Hp |- *; cbn in Hp;
      injection Hp as <-; unfold jsonParser; cbn;
      destruct (json_Unmarshal t s); reflexivity.
Qed.

(** X8: a field of a kind the built-in table has no parser for (a
    channel, a function, a pointer, an array, ...) makes [setField] of the
    second snapshot in part_000 fail with ['<kind>' not supported]. *)
Theorem setField_unsupported_kind (t : gotype) (s : string) :
  parsers ParseFloat ParseComplex json_Unmarshal (kind_of t) = None ->
  Snapshot0.setField ParseFloat ParseComplex json_Unmarshal t s =
  Snapshot0.Failed (ErrOther ("'" ++ kind_string (kind_of t) ++ "' not supported")).
Proof.
  intros Hp. unfold Snapshot0.setField.
  destruct (kind_of t); try discriminate; reflexivity.
Qed.


(** ** The field loop *)

Variable kwParsers : gmap string Parser.
Variable typeParsers : gotype -> option Parser.
Variable kindParsers : kind -> option Parser.

Local Abbreviation XLOAD env :=
  (loadEnv ParseFloat ParseComplex json_Unmarshal kwParsers typeParsers kindParsers env).
Local Abbreviation XFIELD env :=
  (load_field ParseFloat ParseComplex json_Unmarshal kwParsers typeParsers kindParsers env (XLOAD env)).
Local Abbreviation XFIELDS env :=
  (load_fields ParseFloat ParseComplex json_Unmarshal kwParsers typeParsers kindParsers env (XLOAD env)).

Lemma getEnv_found (env : gmap string string) (nm pk : string) (tg : tag) (ft : gotype)
    (n s : string) :
  tag_Lookup tg varTag = Some n -> n <> ""%string -> env !! n = Some s ->
  val (getEnv env (StructField nm pk tg ft)) = s /\ ok (getEnv env (StructField nm pk tg ft)) = true.
Proof.
  intros Ht Hn He. unfold getEnv. rewrite Ht.
  destruct (String.eqb_spec n "") as [|_]; [contradiction|]. cbn [andb negb].
  unfold LookupEnv. rewrite He. repeat case_match; simpl in *; split; congruence.
Qed.

(** X9: under the tables of [LoadEnv], an exported field of the
    predeclared type [string] (or a pointer to one) whose variable is set
    gets the variable's text verbatim, whatever [env_parser] and
    [env_params] say. *)
Theorem string_field_gets_env_value (env : gmap string string)
    (rec : gotype -> value -> value * option goerror) (nm : string) (tg : tag)
    (ft : gotype) (fv : value) (n s : string) :
  tag_Lookup tg varTag = Some n -> n <> ""%string -> env !! n = Some s ->
  target_type ft fv = TNamed "string" KString ->
  load_field ParseFloat ParseComplex json_Unmarshal ∅ no_type no_kind env rec
    (StructField nm "" tg ft) fv =
  (match ft with TPtr _ => VRef (VString s) | _ => VString s end, None).
Proof.
  intros Ht Hn He Hty. assert (Hk : kind_of (target_type ft fv) = KString) by (rewrite Hty; reflexivity).
  clear Hty.
  destruct (getEnv_found env nm "" tg ft n s Ht Hn He) as [Hv Hok].
  unfold load_field. cbn [String.eqb negb]. rewrite Hok, Hv.
  unfold target_type in Hk. unfold getParser. rewrite lookup_empty.
  destruct (negb _); cbn [no_type no_kind];
  destruct ft as [tn k|sn fs|e]; destruct fv;
    cbn in Hk |- *; rewrite ?Hk; try discriminate; reflexivity.
Qed.

(** X10: under the tables of [LoadEnv], an exported slice, map or struct
    field (or a pointer to one) whose variable is set gets the value the
    JSON decoder produces; when decoding fails the field keeps its value,
    except that a nil pointer has already been set to a new zero value. *)
Theorem json_field_gets_decoded_value (env : gmap string string)
    (rec : gotype -> value -> value * option goerror) (nm : string) (tg : tag)
    (ft : gotype) (fv : value) (n s : string) :
  tag_Lookup tg varTag = Some n -> n <> ""%string -> env !! n = Some s ->
  In (kind_of (target_type ft fv)) [KSlice; KMap; KStruct] ->
  load_field ParseFloat ParseComplex json_Unmarshal ∅ no_type no_kind env rec
    (StructField nm "" tg ft) fv =
  match json_Unmarshal (target_type ft fv) s with
  | Ok d => (match ft with TPtr _ => VRef d | _ => d end, None)
  | Err err => (match ft, fv with TPtr e, VNil => VRef (zero_value e) | _, _ => fv end, Some err)
  end.
Proof.
  intros Ht Hn He Hk.
  destruct (getEnv_found env nm "" tg ft n s Ht Hn He) as [Hv Hok].
  unfold load_field. cbn [String.eqb negb]. rewrite Hok, Hv.
  unfold target_type in Hk |- *. unfold getParser. rewrite lookup_empty.
  destruct (negb _); cbn [no_type no_kind];
  destruct ft as [tn k|sn fs|e]; destruct fv; cbn in Hk |- *;
    destruct Hk as [Hk|[Hk|[Hk|[]]]]; rewrite <- ?Hk; try discriminate;
    cbn [parsers]; unfold jsonParser; destruct (json_Unmarshal _ s); reflexivity.
Qed.

(** X11: when the parser of an exported field that is a nil pointer
    fails, the loop stops with that error and leaves the field pointing to
    a new zero value of the pointee type. *)
Theorem nil_ptr_allocated_on_parse_error (env : gmap string string) (nm : string)
    (tg : tag) (e : gotype) (p : Parser) (err : goerror) :
  ok (getEnv env (StructField nm "" tg (TPtr e))) = true ->
  getParser ParseFloat ParseComplex json_Unmarshal kwParsers typeParsers kindParsers
    (parserKw (getEnv env (StructField nm "" tg (TPtr e)))) e = Some p ->
  p e (val (getEnv env (StructField nm "" tg (TPtr e))))
    (params (getEnv env (StructField nm "" tg (TPtr e))))
    (kwParams (getEnv env (StructField nm "" tg (TPtr e)))) = Err err ->
  XFIELD env (StructField nm "" tg (TPtr e)) VNil = (VRef (zero_value e), Some err).
Proof.
  intros Hok Hp Herr. unfold load_field. cbn [String.eqb negb]. rewrite Hok.
  cbn [bind_target]. rewrite Hp, Herr. reflexivity.
Qed.

Lemma load_fields_shape (env : gmap string string) (fs : list structField) (vs : list value) :
  let '(vs', _) := XFIELDS env fs vs in
  List.length vs' = List.length vs /\
  forall i nm pk tg ft, fs !! i = Some (StructField nm pk tg ft) -> pk <> ""%string ->
    vs' !! i = vs !! i.
Proof.
  revert vs. induction fs as [|st fs IH]; intros [|fv vs]; cbn [load_fields].
  - split; [reflexivity|]. intros. reflexivity.
  - split; [reflexivity|]. intros. reflexivity.
  - split; [reflexivity|]. intros. reflexivity.
  - assert (Hst : forall nm pk tg ft, st = StructField nm pk tg ft -> pk <> ""%string ->
                    XFIELD env st fv = (fv, None)).
    { intros nm pk tg ft -> Hpk. unfold load_field.
      destruct (String.eqb_spec pk "") as [|_]; [contradiction|]. reflexivity. }
    destruct (XFIELD env st fv) as [fv' [e|]] eqn:Hf.
    + split; [reflexivity|]. intros [|i] nm pk tg ft Hi Hpk; [|reflexivity].
      cbn in Hi |- *. injection Hi as Hi. pose proof (Hst _ _ _ _ Hi Hpk). congruence.
    + specialize (IH vs). destruct (XFIELDS env fs vs) as [vs'' e'].
      destruct IH as [IHl IHi]. split; [cbn; lia|].
      intros [|i] nm pk tg ft Hi Hpk.
      * cbn in Hi |- *. injection Hi as Hi. pose proof (Hst _ _ _ _ Hi Hpk). congruence.
      * cbn in Hi |- *. exact (IHi i nm pk tg ft Hi Hpk).
Qed.

(** X12: loading a struct keeps its shape: the result is a struct with
    as many fields as before, and every unexported field keeps its
    value, whether the loop stops with an error or not. *)
Theorem loadEnv_keeps_shape (env : gmap string string) (n : string)
    (fs : list structField) (vs : list value) :
  exists vs' err,
    XLOAD env (TStruct n fs) (VStruct vs) = (VStruct vs', err) /\
    List.length vs' = List.length vs /\
    (forall i nm pk tg ft, fs !! i = Some (StructField nm pk tg ft) -> pk <> ""%string ->
       vs' !! i = vs !! i).
Proof.
  pose proof (load_fields_shape env fs vs) as H. cbn [loadEnv].
  destruct (XFIELDS env fs vs) as [vs' err]. exists vs', err. split; [reflexivity|exact H].
Qed.

Lemma silent_struct_field (env : gmap string string) (sn : string) (fs : list structField)
    (nm pk : string) (tg : tag) (ft : gotype) :
  silent env (TStruct sn fs) = true -> In (StructField nm pk tg ft) fs ->
  satisfied env (StructField nm pk tg ft) = false /\
  empty_var_tag (StructField nm pk tg ft) = false /\ silent env ft = true.
Proof.
  intros Hs Hin. cbn [silent] in Hs. rewrite forallb_forall in Hs.
  specialize (Hs _ Hin). cbn beta iota in Hs.
  apply andb_true_iff in Hs as [Hs H3]. apply andb_true_iff in Hs as [H1 H2].
  apply negb_true_iff in H1, H2. auto.
Qed.

(** X13: when no field, at any depth (through pointers too), is tagged
    [env_var:""] or names a variable the environment has, loading leaves
    the value untouched, allocates no pointer and returns no error. *)
Theorem loadEnv_silent_identity (env : gmap string string) (t : gotype) (v : value) :
  silent env t = true -> XLOAD env t v = (v, None).
Proof.
  revert v. induction t as [tn k|sn fs Hfs|e IHe] using gotype_deep_ind; intros v Hs;
    [reflexivity| |reflexivity].
  destruct v as [| | | | | | | | |vs]; try reflexivity.
  cbn [loadEnv].
  assert (Hfields : forall fl, incl fl fs -> XFIELDS env fl vs = (vs, None)).
  { intros fl Hincl. revert vs. induction fl as [|st fl IH]; intros [|fv vs]; try reflexivity.
    cbn [load_fields].
    assert (Hin : In st fs) by (apply Hincl; left; reflexivity).
    assert (Hfld : XFIELD env st fv = (fv, None)).
    { destruct st as [nm pk tg ft].
      destruct (silent_struct_field env sn fs nm pk tg ft Hs Hin) as (Hsat & Hemp & Hsft).
      rewrite List.Forall_forall in Hfs. destruct (Hfs _ Hin) as [Hft Hel]. cbn [field_type] in Hft, Hel.
      unfold load_field.
      destruct (String.eqb_spec pk "") as [->|Hpk]; [|reflexivity]. cbn [negb].
      rewrite (not_satisfied_ok env _ Hsat Hemp).
      destruct ft as [tn k|sn' fs'|e].
      - destruct (kind_eqb _ _); [apply Hft; exact Hsft|reflexivity].
      - destruct (kind_eqb _ _); [apply Hft; exact Hsft|reflexivity].
      - destruct fv; try reflexivity.
        + destruct (kind_eqb (kind_of e) KStruct) eqn:Ek; [|reflexivity]. cbn [andb].
          destruct e as [tn k|sn' fs''|e']; cbn [kind_of kind_eqb] in Ek; try discriminate;
            [reflexivity|].
          rewrite hasEnvVal_satisfied.
          * cbn [silent] in Hsft. destruct (existsb (satisfied env) fs'') eqn:Ex; [|reflexivity].
            apply existsb_exists in Ex as [st' [Hin' Hsat']].
            destruct st' as [nm' pk' tg' ft'].
            destruct (silent_struct_field env sn' fs'' nm' pk' tg' ft' Hsft Hin') as [Hf _].
            congruence.
          * cbn [silent] in Hsft. apply List.Forall_forall. intros [nm' pk' tg' ft'] Hin'.
            exact (proj1 (proj2 (silent_struct_field env sn' fs'' nm' pk' tg' ft' Hsft Hin'))).
        + destruct (kind_eqb (kind_of e) KStruct); [|reflexivity].
          cbn [elem_or_self] in Hel. rewrite (Hel _ Hsft). reflexivity. }
    rewrite Hfld. rewrite IH; [reflexivity|].
    intros x Hx. apply Hincl. right. exact Hx. }
  rewrite (Hfields fs (incl_refl fs)). reflexivity.
Qed.

(** ** The parameters of [getEnv] *)

Lemma split_params_fold (toks : list string) (params0 : list string)
    (kw0 : gmap string string) :
  fold_left
    (fun '(params, kwParams) v =>
       if Contains v equal then
         let kp := Split v equal in
         (params, <[nth 0 kp ""%string := nth 1 kp ""%string]> kwParams)
       else (params ++ [v], kwParams))
    toks (params0, kw0) =
  ((params0 ++ List.filter (fun v => negb (Contains v equal)) toks)%list,
   fold_left (fun kw v =>
                if Contains v equal then
                  <[nth 0 (Split v equal) ""%string := nth 1 (Split v equal) ""%string]> kw
                else kw) toks kw0).
Proof.
  revert params0 kw0. induction toks as [|v toks IH]; intros params0 kw0; cbn.
  - rewrite app_nil_r. reflexivity.
  - destruct (Contains v equal); cbn; rewrite IH; [reflexivity|].
    rewrite <- app_assoc. reflexivity.
Qed.

(** X14: the positional parameters of a field are the [;]-separated
    tokens of its [env_params] text that contain no [=], in order. *)
Theorem split_params_positional (prms : string) :
  fst (split_params prms) =
  List.filter (fun v => negb (Contains v equal)) (Split prms separator).
Proof. unfold split_params. rewrite split_params_fold. reflexivity. Qed.

(** X15: the keyword parameter [k] of a field is taken from the last
    [;]-separated token of its [env_params] text that contains [=] and
    whose part before the first [=] is [k]: its part between the first
    and the second [=]; with no such token [k] is absent. *)
Theorem split_params_keyword (prms k : string) :
  snd (split_params prms) !! k =
  option_map (fun v => nth 1 (Split v equal) ""%string)
    (last (List.filter (fun v => Contains v equal && String.eqb (nth 0 (Split v equal) ""%string) k)
                       (Split prms separator))).
Proof.
  unfold split_params. rewrite split_params_fold. cbn [snd].
  assert (H : forall toks (kw0 : gmap string string),
    fold_left (fun kw v =>
                 if Contains v equal then
                   <[nth 0 (Split v equal) ""%string := nth 1 (Split v equal) ""%string]> kw
                 else kw) toks kw0 !! k =
    match last (List.filter (fun v => Contains v equal && String.eqb (nth 0 (Split v equal) ""%string) k) toks) with
    | Some v => Some (nth 1 (Split v equal) ""%string)
    | None => kw0 !! k
    end).
  { induction toks as [|v toks IH] using rev_ind; intros kw0; [reflexivity|].
    rewrite fold_left_app, List.filter_app. cbn [fold_left List.filter].
    destruct (Contains v equal) eqn:Hc; cbn [andb].
    - destruct (String.eqb_spec (nth 0 (Split v equal) "") k) as [Hk|Hk].
      + rewrite last_snoc, <- Hk, lookup_insert, decide_True by reflexivity. reflexivity.
      + rewrite app_nil_r, lookup_insert_ne by congruence. apply IH.
    - rewrite app_nil_r. apply IH. }
  rewrite H. destruct (last _); reflexivity.
Qed.

(** ** strings.Split *)

Lemma Split_not_nil (s : string) (c : ascii) : Split s c <> [].
Proof.
  destruct s as [|x rest]; cbn; [discriminate|].
  destruct (Ascii.eqb x c); [discriminate|]. destruct (Split rest c); discriminate.
Qed.

Lemma concat_cons_ne (sep x : string) (l : list string) :
  l <> [] -> String.concat sep (x :: l) = (x ++ sep ++ String.concat sep l)%string.
Proof. destruct l; [contradiction|reflexivity]. Qed.

(** X16: joining the parts [strings.Split] returns with the separator
    gives back the text. *)
Theorem Split_join (s : string) (c : ascii) :
  String.concat (String c "") (Split s c) = s.
Proof.
  induction s as [|x rest IH]; [reflexivity|]. cbn [Split].
  pose proof (Split_not_nil rest c) as Hne.
  destruct (Ascii.eqb_spec x c) as [->|Hx].
  - rewrite concat_cons_ne by exact Hne. rewrite IH. reflexivity.
  - destruct (Split rest c) as [|h t] eqn:E; [contradiction|].
    destruct t as [|h' t'].
    + cbn in IH |- *. rewrite IH. reflexivity.
    + rewrite concat_cons_ne in IH |- * by discriminate. rewrite <- IH. reflexivity.
Qed.

(** X17: a token that contains the separator splits into at least two
    parts, so the [kp[1]] of [getEnv] is never out of range. *)
Theorem Split_contains_two_parts (s : string) (c : ascii) :
  Contains s c = true -> (2 <= List.length (Split s c))%nat.
Proof.
  induction s as [|x rest IH]; cbn [Contains]; [discriminate|]. intros H.
  pose proof (Split_not_nil rest c). cbn [Split].
  destruct (Ascii.eqb_spec x c) as [->|Hx].
  - destruct (Split rest c); [contradiction|]. cbn [List.length]. lia.
  - cbn [orb] in H. specialize (IH H).
    destruct (Split rest c) as [|h t]; [contradiction|]. cbn [List.length] in *. lia.
Qed.

(** ** The previous loader *)

Lemma getEnv_v1_agrees (env : gmap string string) (st : structField) :
  empty_var_tag st = false ->
  LoaderV1.getEnv env st = (val (getEnv env st), ok (getEnv env st)).
Proof.
  destruct st as [nm pk tg ft]. unfold empty_var_tag, LoaderV1.getEnv, getEnv.
  destruct (tag_Lookup tg varTag) as [n|]; [|reflexivity]. intros Hn.
  rewrite Hn. cbn [andb negb]. unfold LookupEnv.
  destruct (env !! n); repeat case_match; simpl in *; congruence.
Qed.

Lemma hasEnvVal_v1_agrees (env : gmap string string) (e : gotype) :
  no_empty_var_tags e = true -> LoaderV1.hasEnvVal env e = hasEnvVal env e.
Proof.
  destruct e as [tn k|sn fs|e]; [reflexivity| |reflexivity].
  cbn [no_empty_var_tags]. unfold LoaderV1.hasEnvVal, hasEnvVal.
  induction fs as [|[nm pk tg ft] fs IH]; [reflexivity|].
  cbn [forallb existsb]. intros H. apply andb_true_iff in H as [H1 H2].
  apply andb_true_iff in H1 as [H1 _]. apply negb_true_iff in H1.
  rewrite getEnv_v1_agrees by exact H1. cbn [snd]. rewrite IH by exact H2. reflexivity.
Qed.

(** the kind table of loader.go runs the same parser as [getParser] with
    the tables of [LoadEnv] *)
Lemma parsers_v1_agree {B : Type} (ft : gotype) (s kwstr : string) (ps : list string)
    (kw : gmap string string) (onErr : goerror -> B) (onOk : value -> B) (onNone : B) :
  match LoaderV1.parsers ParseFloat ParseComplex json_Unmarshal (kind_of ft) with
  | Some p => match p ft s with Err e => onErr e | Ok itf => onOk itf end
  | None => onNone
  end =
  match getParser ParseFloat ParseComplex json_Unmarshal ∅ no_type no_kind kwstr ft with
  | Some p => match p ft s ps kw with Err e => onErr e | Ok itf => onOk itf end
  | None => onNone
  end.
Proof.
  unfold getParser. rewrite lookup_empty. destruct (negb _); cbn [no_type no_kind];
  unfold LoaderV1.parsers, parsers, LoaderV1.intParser, intParser, LoaderV1.uintParser,
    uintParser, LoaderV1.floatParser, floatParser, LoaderV1.complexParser, complexParser,
    LoaderV1.jsonParser, jsonParser, boolParser, stringParser;
  destruct (kind_of ft) eqn:Hk; cbv beta iota; rewrite ?Hk; reflexivity.
Qed.

(** X18: for a struct type with no [env_var:""] tag at any depth, the
    loader of loader.go (no empty-name check in [getEnv], the kind table
    only) loads exactly what the current loader loads with the tables of
    [LoadEnv], and returns the same error. *)
Theorem loaderV1_agrees_with_LoadEnv (env : gmap string string) (t : gotype) (v : value) :
  no_empty_var_tags t = true ->
  LoaderV1.loadEnv ParseFloat ParseComplex json_Unmarshal env t v =
  loadEnv ParseFloat ParseComplex json_Unmarshal ∅ no_type no_kind env t v.
Proof.
  revert v. induction t as [tn k|sn fs Hfs|e IHe] using gotype_deep_ind; intros v Hn;
    [reflexivity| |reflexivity].
  destruct v as [| | | | | | | | |vs]; try reflexivity.
  cbn [LoaderV1.loadEnv loadEnv].
  assert (Hfields : forall fl, incl fl fs ->
    LoaderV1.load_fields ParseFloat ParseComplex json_Unmarshal env
      (LoaderV1.loadEnv ParseFloat ParseComplex json_Unmarshal env) fl vs =
    load_fields ParseFloat ParseComplex json_Unmarshal ∅ no_type no_kind env
      (loadEnv ParseFloat ParseComplex json_Unmarshal ∅ no_type no_kind env) fl vs).
  { intros fl Hincl. revert vs. induction fl as [|st fl IH]; intros [|fv vs]; try reflexivity.
    cbn [LoaderV1.load_fields load_fields].
    assert (Hin : In st fs) by (apply Hincl; left; reflexivity).
    rewrite IH by (intros x Hx; apply Hincl; right; exact Hx).
    enough (Hfld : LoaderV1.load_field ParseFloat ParseComplex json_Unmarshal env
                     (LoaderV1.loadEnv ParseFloat ParseComplex json_Unmarshal env) st fv =
                   load_field ParseFloat ParseComplex json_Unmarshal ∅ no_type no_kind env
                     (loadEnv ParseFloat ParseComplex json_Unmarshal ∅ no_type no_kind env) st fv)
      by (rewrite Hfld; reflexivity).
    destruct st as [nm pk tg ft].
    cbn [no_empty_var_tags] in Hn. rewrite forallb_forall in Hn.
    specialize (Hn _ Hin). cbn beta iota in Hn.
    apply andb_true_iff in Hn as [Hemp Hft_n]. apply negb_true_iff in Hemp.
    rewrite List.Forall_forall in Hfs. destruct (Hfs _ Hin) as [Hft Hel].
    cbn [field_type] in Hft, Hel.
    unfold LoaderV1.load_field, load_field.
    destruct (negb (String.eqb pk "")); [reflexivity|].
    rewrite (getEnv_v1_agrees env (StructField nm pk tg ft) Hemp).
    destruct (ok (getEnv env (StructField nm pk tg ft))).
    - destruct (bind_target ft fv) as [[fieldType fieldValue] wrap].
      apply parsers_v1_agree.
    - destruct ft as [tn k|sn' fs'|e].
      + destruct (kind_eqb _ _); [apply Hft; exact Hft_n|reflexivity].
      + destruct (kind_eqb _ _); [apply Hft; exact Hft_n|reflexivity].
      + cbn [no_empty_var_tags elem_or_self] in Hft_n, Hel.
        destruct fv; try reflexivity.
        * rewrite hasEnvVal_v1_agrees by exact Hft_n.
          destruct (_ && _); [|reflexivity]. rewrite (Hel _ Hft_n). reflexivity.
        * destruct (kind_eqb _ _); [|reflexivity]. rewrite (Hel _ Hft_n). reflexivity. }
  rewrite (Hfields fs (incl_refl fs)). reflexivity.
Qed.

End Extras.

(** * Concrete runs *)

(** C1: [bitSizeMap] has no entry for int8 (nor uint8), so an int8 field is
    parsed with bit size 0, i.e. as a 64-bit integer, and [Convert] wraps
    it: ["99999"] is stored as -97 and the call succeeds.  The int16
    sibling, which has its entry, rejects the same text with a range
    error. *)
Theorem C1_int8_overflow_wraps ParseFloat ParseComplex json_Unmarshal :
  LoadEnv ParseFloat ParseComplex json_Unmarshal {[ "X" := "99999" ]}
    (Some (TPtr S8, VRef (zero_value S8))) =
  (Some (TPtr S8, VRef (VStruct [VInt (-97)])), Return None) /\
  LoadEnv ParseFloat ParseComplex json_Unmarshal {[ "X" := "99999" ]}
    (Some (TPtr S16, VRef (zero_value S16))) =
  (Some (TPtr S16, VRef (VStruct [VInt 0])), Return (Some (ErrRange "ParseInt" "99999"))).
Proof. split; vm_compute; reflexivity. Qed.

(** C2: the look-ahead behind a nil pointer is one level deep: [Outer.Mid]
    stays nil although [Mid.Inner.X] (two levels down) is satisfied. *)
Lemma C2_depth_two_stays_nil :
  satisfied {[ "X" := "x" ]} (field "X" "X" t_string) = true /\
  LoadEnv float_unsupported complex_unsupported json_raw {[ "X" := "x" ]}
    (Some (TPtr Outer, VRef (VStruct [VNil]))) =
  (Some (TPtr Outer, VRef (VStruct [VNil])), Return None).
Proof. split; vm_compute; reflexivity. Qed.

(** C3: [Config.Database] carries its own annotation [DB_CONFIG]; with
    [DB_CONFIG] unset and [DB_HOST] set the walker recurses into it and
    binds [Host] (the README's first example). *)
Lemma C3_annotated_record_recursed :
  LoadEnv float_unsupported complex_unsupported json_raw {[ "DB_HOST" := "localhost" ]}
    (Some (TPtr Config, VRef (zero_value Config))) =
  (Some (TPtr Config, VRef (VStruct [VString ""; VStruct [VString "localhost"; VInt 0]])),
   Return None).
Proof. vm_compute; reflexivity. Qed.

(** C5: [kp := strings.Split(v, "=")] keeps only [kp[1]]: the token
    ["k=a=b"] gives the keyword parameter [k -> "a"], the ["=b"] is lost. *)
Theorem C5_params_value_truncated :
  (snd (split_params "k=a=b") !! "k"%string = Some "a"%string /\ fst (split_params "k=a=b") = []) /\
  kwParams (getEnv {[ "F" := "v" ]} params_field) !! "k"%string = Some "a"%string.
Proof. split; [split|]; vm_compute; reflexivity. Qed.

(** C7: a field tagged [env_var:""] has no satisfied annotation, yet
    [getEnv] reports it as found with the value [""] (its named result
    [ok] keeps the [true] of the tag lookup), so the caller's default is
    overwritten, or the call fails for an int field. *)
Theorem C7_empty_var_tag_overwrites ParseFloat ParseComplex json_Unmarshal (env : gmap string string) :
  satisfied env (field "S" "" t_string) = false /\
  LoadEnv ParseFloat ParseComplex json_Unmarshal env
    (Some (TPtr EmptyTagged, VRef (VStruct [VString "default"]))) =
  (Some (TPtr EmptyTagged, VRef (VStruct [VString ""])), Return None) /\
  LoadEnv ParseFloat ParseComplex json_Unmarshal env
    (Some (TPtr EmptyTaggedInt, VRef (VStruct [VInt 5]))) =
  (Some (TPtr EmptyTaggedInt, VRef (VStruct [VInt 5])), Return (Some (ErrSyntax "ParseInt" ""))).
Proof. split; [|split]; vm_compute; reflexivity. Qed.

(** * Instances of the properties *)

Local Abbreviation RUN env :=
  (loadEnv float_unsupported complex_unsupported json_raw no_kw no_type no_kind env).
Local Abbreviation STEP env :=
  (load_field float_unsupported complex_unsupported json_raw no_kw no_type no_kind env (RUN env)).

Lemma C2_nil_ptr_one_level_lookahead_witness :
  (satisfied {[ "X" := "x" ]} inner_ptr_field = false /\
   empty_var_tag inner_ptr_field = false /\
   Forall (fun st => empty_var_tag st = false) [field "X" "X" t_string]) /\
  (STEP {[ "X" := "x" ]} inner_ptr_field VNil =
   (if existsb (satisfied {[ "X" := "x" ]}) [field "X" "X" t_string] then
      let '(w, err) := RUN {[ "X" := "x" ]} Inner (zero_value Inner) in (VRef w, err)
    else (VNil, None)) /\
   (fst (STEP {[ "X" := "x" ]} inner_ptr_field VNil) = VNil <->
    existsb (satisfied {[ "X" := "x" ]}) [field "X" "X" t_string] = false)).
Proof.
  assert (H1 : satisfied {[ "X" := "x" ]} inner_ptr_field = false) by (vm_compute; reflexivity).
  assert (H2 : empty_var_tag inner_ptr_field = false) by (vm_compute; reflexivity).
  assert (H3 : Forall (fun st => empty_var_tag st = false) [field "X" "X" t_string])
    by (repeat constructor).
  split; [split; [exact H1 | split; [exact H2 | exact H3]]|].
  exact (C2_nil_ptr_one_level_lookahead float_unsupported complex_unsupported json_raw
           no_kw no_type no_kind {[ "X" := "x" ]} "M" [] "Inner" [field "X" "X" t_string]
           H1 H2 H3).
Defined.

Lemma C3_recursion_iff_not_satisfied_witness :
  STEP {[ "DB_CONFIG" := "{}"; "DB_HOST" := "x" ]} (field "Database" "DB_CONFIG" DatabaseConfig)
    (zero_value DatabaseConfig) =
  STEP {[ "DB_CONFIG" := "{}" ]} (field "Database" "DB_CONFIG" DatabaseConfig)
    (zero_value DatabaseConfig) /\
  STEP {[ "DB_HOST" := "x" ]} (field "Database" "DB_CONFIG" DatabaseConfig)
    (VStruct [VString ""; VInt 0]) =
  RUN {[ "DB_HOST" := "x" ]} DatabaseConfig (VStruct [VString ""; VInt 0]) /\
  STEP {[ "X" := "x" ]} inner_ptr_field VNil =
  (VRef (VStruct [VString "x"]), None).
Proof.
  destruct (C3_recursion_iff_not_satisfied float_unsupported complex_unsupported json_raw
              no_kw no_type no_kind) as [Ha [Hb [_ Hd]]].
  split; [|split].
  - apply Ha; [vm_compute; reflexivity|].
    intros n Hn. vm_compute in Hn. injection Hn as <-. vm_compute. reflexivity.
  - apply Hb; vm_compute; reflexivity.
  - rewrite (Hd {[ "X" := "x" ]} "M" [] "Inner" [field "X" "X" t_string]).
    + vm_compute. reflexivity.
    + vm_compute. reflexivity.
    + vm_compute. reflexivity.
    + repeat constructor.
Defined.

Lemma C4_parser_precedence_witness :
  load_field float_unsupported complex_unsupported json_raw upper_kw no_type no_kind
    {[ "A" := "a" ]}
    (loadEnv float_unsupported complex_unsupported json_raw upper_kw no_type no_kind {[ "A" := "a" ]})
    upper_field (VString "d") = (VString "OVERRIDE", None).
Proof.
  apply (proj2 (C4_parser_precedence float_unsupported complex_unsupported json_raw
                  upper_kw no_type no_kind) {[ "A" := "a" ]} "S" [(varTag, "A"); (parserTag, "upper")]
           t_string (VString "d") upper_parser (VString "OVERRIDE")).
  - vm_compute; reflexivity.
  - vm_compute. intros H; discriminate H.
  - vm_compute; reflexivity.
  - vm_compute; reflexivity.
Defined.

Lemma C6_first_error_stops_witness :
  RUN {[ "A" := "a"; "B" := "99999" ]}
    (TStruct "W" ([field "S" "A" t_string] ++ field "N" "B" t_int16 :: [field "T" "A" t_string])%list)
    (VStruct ([VString "d"] ++ VInt 7 :: [VString "d"])%list) =
  (VStruct ([VString "a"] ++ VInt 7 :: [VString "d"])%list, Some (ErrRange "ParseInt" "99999")).
Proof.
  apply (C6_first_error_stops float_unsupported complex_unsupported json_raw no_kw no_type no_kind).
  - reflexivity.
  - vm_compute; reflexivity.
  - vm_compute; reflexivity.
Defined.

Lemma C8_no_parser_no_error_witness :
  snd (RUN {[ "A" := "a" ]} (TStruct "W" ([field "S" "A" t_string] ++ chan_field :: [])%list)
         (VStruct ([VString "d"] ++ VNil :: [])%list)) =
  snd (RUN {[ "A" := "a" ]} (TStruct "W" ([field "S" "A" t_string] ++ [])%list)
         (VStruct ([VString "d"] ++ [])%list)) /\
  (fst (STEP {[ "A" := "a" ]} chan_field VNil) = VNil \/
   (VNil = VNil /\ exists e, TNamed "chan int" KChan = TPtr e /\
      fst (STEP {[ "A" := "a" ]} chan_field VNil) = VRef (zero_value e))).
Proof.
  apply (C8_no_parser_no_error float_unsupported complex_unsupported json_raw no_kw no_type no_kind
           {[ "A" := "a" ]} "W" [field "S" "A" t_string] [] [VString "d"] [] "C" "" [(varTag, "A")]
           (TNamed "chan int" KChan) VNil).
  - reflexivity.
  - vm_compute; reflexivity.
  - vm_compute; reflexivity.
Defined.

Lemma C9_invalid_target_panics_witness :
  (forall e w, Some (t_int, VInt 3) = Some (TPtr e, VRef w) -> kind_of e <> KStruct) /\
  exists msg, LoadEnvUserParser float_unsupported complex_unsupported json_raw no_kw no_type no_kind
                ∅ (Some (t_int, VInt 3)) = (Some (t_int, VInt 3), Panic msg).
Proof.
  assert (H : forall e w, Some (t_int, VInt 3) = Some (TPtr e, VRef w) -> kind_of e <> KStruct)
    by (intros e w Heq; discriminate Heq).
  split; [exact H|].
  exact (C9_invalid_target_panics float_unsupported complex_unsupported json_raw no_kw no_type no_kind
           ∅ (Some (t_int, VInt 3)) H).
Defined.

Lemma C10_nil_ptr_allocated_first_witness :
  satisfied {[ "A" := "a" ]} chan_ptr_field = true /\
  STEP {[ "A" := "a" ]} chan_ptr_field VNil = (VRef (zero_value (TNamed "chan int" KChan)), None).
Proof.
  assert (Hs : satisfied {[ "A" := "a" ]} chan_ptr_field = true) by (vm_compute; reflexivity).
  split; [exact Hs|].
  apply (proj1 (C10_nil_ptr_allocated_first float_unsupported complex_unsupported json_raw
                  no_kw no_type no_kind {[ "A" := "a" ]} "P" [(varTag, "A")]
                  (TNamed "chan int" KChan) Hs)).
  vm_compute; reflexivity.
Defined.

(** ** Instances of the further properties *)

Ltac in_list := cbn; repeat first [left; reflexivity | right].

Lemma intParser_decimal_witness :
  intParser t_int16 ("-" ++ "40000")%string [] ∅ = Err (ErrRange "ParseInt" "-40000").
Proof.
  rewrite (intParser_decimal t_int16 "-" "40000" [] ∅
             ltac:(in_list) ltac:(in_list) ltac:(discriminate) ltac:(reflexivity)).
  vm_compute. reflexivity.
Defined.

Lemma small_kinds_parsed_at_64_bits_witness :
  intParser t_int8 ("" ++ "300")%string [] ∅ = Ok (VInt 44) /\
  uintParser (TNamed "uint8" KUint8) "300" [] ∅ = Ok (VUint 44).
Proof.
  destruct (small_kinds_parsed_at_64_bits t_int8 "" "300" [] ∅
              ltac:(discriminate) ltac:(reflexivity)) as [H1 _].
  destruct (small_kinds_parsed_at_64_bits (TNamed "uint8" KUint8) "" "300" [] ∅
              ltac:(discriminate) ltac:(reflexivity)) as [_ H2].
  split.
  - rewrite (H1 eq_refl ltac:(in_list)). vm_compute. reflexivity.
  - rewrite (H2 eq_refl). vm_compute. reflexivity.
Defined.

Lemma uintParser_decimal_witness :
  uintParser (TNamed "uint16" KUint16) "70000" [] ∅ = Err (ErrRange "ParseUint" "70000").
Proof.
  rewrite (uintParser_decimal (TNamed "uint16" KUint16) "70000" [] ∅
             ltac:(in_list) ltac:(discriminate) ltac:(reflexivity)).
  vm_compute. reflexivity.
Defined.

Lemma uintParser_rejects_sign_witness :
  uintParser (TNamed "uint" KUint) ("-" ++ "5")%string [] ∅ = Err (ErrSyntax "ParseUint" "-5").
Proof.
  exact (uintParser_rejects_sign (TNamed "uint" KUint) "-" "5" [] ∅
           ltac:(in_list) ltac:(in_list)).
Defined.

Lemma setField_signed_decimal_witness :
  Snapshot0.setField float_unsupported complex_unsupported json_raw t_int8 ("" ++ "300")%string =
  Snapshot0.Failed (ErrRange "ParseInt" "300").
Proof.
  rewrite (setField_signed_decimal float_unsupported complex_unsupported json_raw
             t_int8 "" "300" ltac:(in_list) eq_refl ltac:(in_list) ltac:(discriminate)
             ltac:(reflexivity)).
  vm_compute. reflexivity.
Defined.

Lemma setField_unsigned_decimal_witness :
  Snapshot0.setField float_unsupported complex_unsupported json_raw (TNamed "uint8" KUint8) "300" =
  Snapshot0.Failed (ErrRange "ParseUint" "300").
Proof.
  rewrite (setField_unsigned_decimal float_unsupported complex_unsupported json_raw
             (TNamed "uint8" KUint8) "300" ltac:(in_list) eq_refl ltac:(discriminate)
             ltac:(reflexivity)).
  vm_compute. reflexivity.
Defined.

Lemma setField_agrees_with_parsers_witness :
  Snapshot0.setField float_unsupported complex_unsupported json_raw t_int16 "-123" =
  Snapshot0.Stored (VInt (-123)).
Proof.
  rewrite (setField_agrees_with_parsers float_unsupported complex_unsupported json_raw
             t_int16 "-123" [] ∅ intParser ltac:(discriminate) ltac:(discriminate)
             (or_introl eq_refl) eq_refl).
  vm_compute. reflexivity.
Defined.

Lemma setField_unsupported_kind_witness :
  Snapshot0.setField float_unsupported complex_unsupported json_raw (TNamed "chan int" KChan) "1" =
  Snapshot0.Failed (ErrOther "'chan' not supported").
Proof.
  exact (setField_unsupported_kind float_unsupported complex_unsupported json_raw
           (TNamed "chan int" KChan) "1" eq_refl).
Defined.


Lemma string_field_gets_env_value_witness :
  STEP {[ "A" := "a" ]} (field "P" "A" (TPtr t_string)) VNil = (VRef (VString "a"), None).
Proof.
  exact (string_field_gets_env_value float_unsupported complex_unsupported json_raw
           {[ "A" := "a" ]} (RUN {[ "A" := "a" ]}) "P" [(varTag, "A")] (TPtr t_string) VNil "A" "a"
           eq_refl ltac:(discriminate) ltac:(vm_compute; reflexivity) eq_refl).
Defined.

Lemma json_field_gets_decoded_value_witness :
  STEP {[ "J" := "[1]" ]} (field "L" "J" (TNamed "[]int" KSlice)) VNil = (VData "[1]", None).
Proof.
  exact (json_field_gets_decoded_value float_unsupported complex_unsupported json_raw
           {[ "J" := "[1]" ]} (RUN {[ "J" := "[1]" ]}) "L" [(varTag, "J")] (TNamed "[]int" KSlice)
           VNil "J" "[1]" eq_refl ltac:(discriminate) ltac:(vm_compute; reflexivity) ltac:(in_list)).
Defined.

Lemma nil_ptr_allocated_on_parse_error_witness :
  STEP {[ "N" := "99999" ]} (field "P" "N" (TPtr t_int16)) VNil =
  (VRef (VInt 0), Some (ErrRange "ParseInt" "99999")).
Proof.
  apply (nil_ptr_allocated_on_parse_error float_unsupported complex_unsupported json_raw
           no_kw no_type no_kind {[ "N" := "99999" ]} "P" [(varTag, "N")]
           t_int16 intParser (ErrRange "ParseInt" "99999")); reflexivity.
Defined.

Lemma loadEnv_silent_identity_witness :
  RUN {[ "Y" := "y" ]} Outer (VStruct [VNil]) = (VStruct [VNil], None).
Proof.
  apply (loadEnv_silent_identity float_unsupported complex_unsupported json_raw
           no_kw no_type no_kind {[ "Y" := "y" ]} Outer (VStruct [VNil])).
  vm_compute. reflexivity.
Defined.

Lemma Split_contains_two_parts_witness : (2 <= List.length (Split "a=b=c" equal))%nat.
Proof. exact (Split_contains_two_parts "a=b=c" equal eq_refl). Defined.

Lemma loaderV1_agrees_with_LoadEnv_witness :
  LoaderV1.loadEnv float_unsupported complex_unsupported json_raw {[ "DB_HOST" := "h" ]}
    DatabaseConfig (zero_value DatabaseConfig) =
  RUN {[ "DB_HOST" := "h" ]} DatabaseConfig (zero_value DatabaseConfig).
Proof.
  exact (loaderV1_agrees_with_LoadEnv float_unsupported complex_unsupported json_raw
           {[ "DB_HOST" := "h" ]} DatabaseConfig (zero_value DatabaseConfig) eq_refl).
Defined.
